(** * fast_transformers/core/tensor.h

    A shallow embedding of the DLPack tensor handle of TurboTransformers
    ([CreateDLPackTensor] and [class Tensor]) and the properties of it that the
    specification states.

    Conventions of the embedding.
    - Machine integers are values of [Z]; every conversion the C++ code makes
      between integer types is written out ([to_int], [to_int64], [to_size_t],
      [to_uint8]), two's complement, as on the targets the library builds for.
      Unsigned arithmetic wraps; signed arithmetic that overflows is undefined.
    - A call that can fail returns an [outcome]: a value, the exception an
      [FT_ENFORCE] macro throws, or undefined behaviour (a null handle
      dereferenced, an array read past its end, a signed counter or product
      overflowing).
    - [double] is the kernel's binary64 type [float]. *)

From Stdlib Require Import ZArith List String Ascii Bool Lia Floats.
Import ListNotations.
Local Open Scope string_scope.
Local Open Scope list_scope.
Local Open Scope Z_scope.

(** ** Integer types *)

Definition INT_MAX : Z := 2 ^ 31 - 1.
Definition INT_MIN : Z := - 2 ^ 31.
Definition INT64_MAX : Z := 2 ^ 63 - 1.
Definition INT64_MIN : Z := - 2 ^ 63.

(** Conversion to [int] (32 bits, signed). *)
Definition to_int (z : Z) : Z := (z + 2 ^ 31) mod 2 ^ 32 - 2 ^ 31.

(** Conversion to [int64_t]. *)
Definition to_int64 (z : Z) : Z := (z + 2 ^ 63) mod 2 ^ 64 - 2 ^ 63.

(** Conversion to [size_t] and [uint64_t] (64 bits, unsigned). *)
Definition to_size_t (z : Z) : Z := z mod 2 ^ 64.

(** Conversion to [uint8_t]. *)
Definition to_uint8 (z : Z) : Z := z mod 2 ^ 8.

(** Conversion of an integer to [double], rounding to nearest even. *)
Definition Z_to_double (z : Z) : float :=
  SF2Prim (binary_normalize prec emax z 0 false).

(** ** Element types

    The types [DataTypeTrait] is specialised for. *)
Inductive CType : Type := c_float | c_int | c_int64_t.

Definition sizeof (T : CType) : Z :=
  match T with c_float => 4 | c_int => 4 | c_int64_t => 8 end.

(** The values of an element type. A [float] is kept as the [double] it
    converts to, which is exact. *)
Definition value (T : CType) : Type :=
  match T with c_float => float | c_int => Z | c_int64_t => Z end.

(** The implicit conversion of an element to [double] in [sum += x]. *)
Definition to_double (T : CType) : value T -> float :=
  match T with
  | c_float => fun x => x
  | c_int => Z_to_double
  | c_int64_t => Z_to_double
  end.

(** ** The interchange structure *)

Module dlpack.

(** A pointer: null, or the block an allocation returned. *)
Inductive ptr : Type := nullptr | block (b : nat).

(** Modelled from the spec: [dlpack/dlpack.h] is a header of the DLPack
    project and not part of the sources; the structures below have the
    fields the spec's data model lists (data pointer, device, ndim, dtype,
    shape, strides, byte offset, deallocator), with the names [tensor.h]
    uses for them and the enumerators' values of the header. *)
Inductive DLDeviceType : Type :=
| kDLCPU | kDLGPU | kDLCPUPinned | kDLOpenCL | kDLVulkan
| kDLMetal | kDLVPI | kDLROCM | kDLExtDev.

Definition kDLInt : Z := 0.
Definition kDLUInt : Z := 1.
Definition kDLFloat : Z := 2.

Record DLContext : Type := {
  device_type : DLDeviceType;
  device_id : Z
}.

Record DLDataType : Type := {
  code : Z;   (* uint8_t *)
  bits : Z;   (* uint8_t *)
  lanes : Z   (* uint16_t *)
}.

(** [shape] and [strides] point to arrays the structure owns: an array is
    the list of its entries, [strides] may be null. [ndim] is an [int] of
    its own: nothing ties it to the extent of the arrays. *)
Record DLTensor : Type := {
  data : ptr;
  ctx : DLContext;
  ndim : Z;                      (* int *)
  dtype : DLDataType;
  shape : list Z;                (* int64_t* *)
  strides : option (list Z);     (* int64_t*, or nullptr *)
  byte_offset : Z                (* uint64_t *)
}.

(** The function a [deleter] field points to. *)
Inductive deleter_fn : Type :=
| DLManagedTensorDeletor        (* details::DLManagedTensorDeletor *)
| foreign_deleter (id : nat).   (* the deleter of another library *)

Record DLManagedTensor : Type := {
  dl_tensor : DLTensor;
  deleter : deleter_fn
}.

End dlpack.

(** ** Failures *)

(** Modelled from the spec: the [FT_ENFORCE] macros come from
    [fast_transformers/core/enforce.h], which is not part of the sources. A
    macro whose check fails throws; the exception carries the message and the
    arguments the call site gives. One constructor per call site of
    [tensor.h]. *)
Inductive EnforceNotMet : Type :=
| ShapeListEmpty
    (* FT_ENFORCE_NE(shape_list.size(), 0, "Shape list should not be empty") *)
| TensorEmpty
    (* FT_ENFORCE_NE(tensor_, nullptr, "The Tensor must contain data") *)
| ByteOffsetNotZero (byte_offset : Z)
    (* FT_ENFORCE_EQ(t.byte_offset, 0, "byte_offset must be zero") *)
| DataTypeMismatch (request : CType) (code bits : Z).
    (* FT_ENFORCE(details::IsDataType<T>(t.dtype),
                  "data type mismatch, request %s, actual (%d,%d)",
                  typeid(T).name(), t.dtype.code, t.dtype.bits) *)

(** The format string of each call site. *)
Definition what (e : EnforceNotMet) : string :=
  match e with
  | ShapeListEmpty => "Shape list should not be empty"
  | TensorEmpty => "The Tensor must contain data"
  | ByteOffsetNotZero _ => "byte_offset must be zero"
  | DataTypeMismatch _ _ _ => "data type mismatch, request %s, actual (%d,%d)"
  end.

(** Modelled from the spec: the error taxonomy of section 7 of the spec, which
    the code does not name (it has one exception type). *)
Inductive ErrorClass : Type := InvalidArgument | Precondition | TypeMismatch.

Definition error_class (e : EnforceNotMet) : ErrorClass :=
  match e with
  | ShapeListEmpty => InvalidArgument
  | TensorEmpty => Precondition
  | ByteOffsetNotZero _ => TypeMismatch
  | DataTypeMismatch _ _ _ => TypeMismatch
  end.

(** Whether a failure names the requested and the actual type: the message
    with the [request %s, actual (%d,%d)] arguments does, the others carry no
    type. *)
Definition names_types (e : EnforceNotMet) (T : CType) (dt : dlpack.DLDataType) : Prop :=
  e = DataTypeMismatch T (dlpack.code dt) (dlpack.bits dt).

Inductive undefined_behaviour : Type :=
| NullDereference    (* operator-> of an empty unique_ptr *)
| OutOfBounds        (* an array read past its end *)
| SignedOverflow.    (* ++i at INT_MAX; an int64_t product out of range *)

Inductive outcome (A : Type) : Type :=
| Ok (a : A)
| Throw (e : EnforceNotMet)
| Undefined (u : undefined_behaviour).
Arguments Ok {A} a.
Arguments Throw {A} e.
Arguments Undefined {A} u.

(** ** Sequencing *)

(** Code that runs statement after statement and stops at the first throw: the
    pure member functions run in [outcome], [Print] in [outcome] over the
    stream it writes to. *)
Class Sequenced (M : Type -> Type) : Type := {
  ret : forall {A}, A -> M A;
  bind : forall {A B}, M A -> (A -> M B) -> M B;
  lift : forall {A}, outcome A -> M A
}.

Declare Scope seq_scope.
Delimit Scope seq_scope with seq.
Notation "x <- c ;; k" := (bind c (fun x => k))
  (at level 61, c at next level, right associativity) : seq_scope.
Notation "c ;; k" := (bind c (fun _ => k))
  (at level 61, right associativity) : seq_scope.
Local Open Scope seq_scope.

#[export] Instance Sequenced_outcome : Sequenced outcome := {
  ret := fun A a => Ok a;
  bind := fun A B c k =>
    match c with
    | Ok a => k a
    | Throw e => Throw e
    | Undefined u => Undefined u
    end;
  lift := fun A c => c
}.

(** [for (int i = first; i < n; ++i) body], entered with the number of trips
    left. The counter is an [int]: incrementing it at [INT_MAX] is undefined. *)
Fixpoint for_int {M} `{Sequenced M} {S : Type}
    (trips : nat) (i : Z) (body : Z -> S -> M S) (s : S) : M S :=
  match trips with
  | O => ret s
  | Datatypes.S trips' =>
      s' <- body i s ;;
      if i =? INT_MAX then lift (Undefined SignedOverflow)
      else for_int trips' (i + 1) body s'
  end.

(** [for (size_t i = first; i < n; ++i) body]. *)
Fixpoint for_size_t {M} `{Sequenced M} {S : Type}
    (trips : nat) (i : Z) (body : Z -> S -> M S) (s : S) : M S :=
  match trips with
  | O => ret s
  | Datatypes.S trips' =>
      s' <- body i s ;;
      for_size_t trips' (i + 1) body s'
  end.

(** [arr[i]]. *)
Definition subscript {A : Type} (arr : list A) (i : Z) : outcome A :=
  if (0 <=? i) && (i <? Z.of_nat (List.length arr)) then
    match nth_error arr (Z.to_nat i) with
    | Some x => Ok x
    | None => Undefined OutOfBounds
    end
  else Undefined OutOfBounds.

(** [FT_ENFORCE(cond, ...)]: throws unless [cond] holds. *)
Definition enforce (cond : bool) (e : EnforceNotMet) : outcome unit :=
  if cond then Ok tt else Throw e.

(** ** The free store *)

(** What the code asks the free store for; the store is the list of the
    requests made so far, and a pointer names the request that returned it. *)
Inductive allocation : Type :=
| new_DLManagedTensor               (* new DLManagedTensor *)
| new_int64_array (n : Z)           (* new int64_t[n] *)
| align_alloc (T : CType) (n : Z).  (* align_alloc_t<T>(n) *)

Definition heap : Type := list allocation.

Definition allocate (a : allocation) (h : heap) : dlpack.ptr * heap :=
  (dlpack.block (List.length h), h ++ [a]).

(** Modelled from the spec: [align_alloc_t] comes from
    [fast_transformers/core/memory.h], which is not part of the sources. Given
    an element type and a count it returns a pointer to that many contiguous,
    suitably aligned elements, uninitialised; a failing allocation is left to
    the allocator and is not modelled. *)
Definition align_alloc_t (T : CType) (n : Z) (h : heap) : dlpack.ptr * heap :=
  allocate (align_alloc T n) h.

(** ** <numeric> *)

(** [std::accumulate(first, last, init, op)] runs
    [init = op(std::move(init), *first)] over the range. The accumulator has
    the type of [init]; [conv] is the conversion of [op]'s result to that
    type. It stops where [op] has no defined result. *)
Fixpoint accumulate (conv : Z -> Z) (op : Z -> Z -> outcome Z)
    (l : list Z) (init : Z) : outcome Z :=
  match l with
  | [] => Ok init
  | x :: l' => r <- op init x ;; accumulate conv op l' (conv r)
  end.

(** [std::multiplies<int64_t>()]: both arguments are [int64_t], and so is the
    product; a product that is no [int64_t] is a signed overflow, which is
    undefined. *)
Definition multiplies_int64_t (x y : Z) : outcome Z :=
  if (INT64_MIN <=? x * y) && (x * y <=? INT64_MAX) then Ok (x * y)
  else Undefined SignedOverflow.

(** [shape_list.size()] of a [std::initializer_list<int64_t>]. *)
Definition size (shape_list : list Z) : Z := Z.of_nat (List.length shape_list).

(** A call [f(tensor)] of a deleter [f] on a structure. *)
Definition deleter_call : Type := dlpack.deleter_fn * dlpack.DLManagedTensor.

(** ** namespace fast_transformers::core *)

Module core.

Module details.

(** [DataTypeTrait<T>::DLPackTypeCode]. *)
Definition DLPackTypeCode (T : CType) : Z :=
  match T with
  | c_float => dlpack.kDLFloat
  | c_int => dlpack.kDLInt
  | c_int64_t => dlpack.kDLInt
  end.

Definition IsDataType (T : CType) (dt : dlpack.DLDataType) : bool :=
  (DLPackTypeCode T =? dlpack.code dt) &&
  ((dlpack.bits dt =? 0) || (dlpack.bits dt =? sizeof T * 8)).

(** [DLPackManagedTensorDeleter::operator()]: nothing for a null pointer,
    else the call [tensor->deleter(tensor)], which is added to the calls made
    so far. The deleters themselves are defined outside [tensor.h]. *)
Definition DLPackManagedTensorDeleter
    (tensor : option dlpack.DLManagedTensor) (calls : list deleter_call)
  : list deleter_call :=
  match tensor with
  | None => calls
  | Some m => calls ++ [(dlpack.deleter m, m)]
  end.

End details.

(** The factory. It returns the new structure, or throws, and the free
    store after its allocations. The two [new] come before the product is
    accumulated, the data buffer after. *)
Definition CreateDLPackTensor (T : CType) (shape_list : list Z) (h : heap)
  : outcome dlpack.DLManagedTensor * heap :=
  match enforce (negb (size shape_list =? 0)) ShapeListEmpty with
  | Ok _ =>
      let '(_, h) := allocate new_DLManagedTensor h in
      let '(_, h) := allocate (new_int64_array (size shape_list)) h in
      match accumulate to_int multiplies_int64_t shape_list 1 with
      | Ok product =>
          let numel := to_size_t product in
          let '(data, h) := align_alloc_t T numel h in
          (Ok {| dlpack.dl_tensor :=
                   {| dlpack.data := data;
                      dlpack.ctx := {| dlpack.device_type := dlpack.kDLCPU;
                                       dlpack.device_id := 0 |};
                      dlpack.ndim := to_int (size shape_list);
                      dlpack.dtype :=
                        {| dlpack.code := to_uint8 (details.DLPackTypeCode T);
                           dlpack.bits := to_uint8 (sizeof T * 8);
                           dlpack.lanes := 1 |};
                      dlpack.shape := shape_list;
                      dlpack.strides := None;
                      dlpack.byte_offset := 0 |};
                 dlpack.deleter := dlpack.DLManagedTensorDeletor |}, h)
      | Throw e => (Throw e, h)
      | Undefined u => (Undefined u, h)
      end
  | Throw e => (Throw e, h)
  | Undefined u => (Undefined u, h)
  end.

(** What [os << x] writes, by the type of [x]. *)
Inductive token : Type :=
| str (s : string)
| endl
| of_size_t (n : Z)
| of_int64_t (z : Z)
| of_elem (T : CType) (x : value T)
| of_double (d : float).

Definition ostream : Type := list token.

(** Code that writes to a stream: what was written before a throw stays
    written. *)
Definition writer (A : Type) : Type := ostream -> outcome A * ostream.

#[export] Instance Sequenced_writer : Sequenced writer := {
  ret := fun A a os => (Ok a, os);
  bind := fun A B c k os =>
    match c os with
    | (Ok a, os') => k a os'
    | (Throw e, os') => (Throw e, os')
    | (Undefined u, os') => (Undefined u, os')
    end;
  lift := fun A c os => (c, os)
}.

Definition put (t : token) : writer unit := fun os => (Ok tt, os ++ [t]).

Module Tensor.

(** The handle: [tensor_] is the [unique_ptr], [None] when it is null.
    The constructor takes the pointer as it is. *)
Record t : Type := Tensor { tensor_ : option dlpack.DLManagedTensor }.

(** [tensor_->dl_tensor]. *)
Definition dl_tensor (this : t) : outcome dlpack.DLTensor :=
  match tensor_ this with
  | Some m => Ok (dlpack.dl_tensor m)
  | None => Undefined NullDereference
  end.

(** It returns the pointer released and leaves the handle as it is after
    the call. *)
Definition ToDLPack (this : t) : outcome dlpack.DLManagedTensor * t :=
  match tensor_ this with
  | None => (Throw TensorEmpty, this)
  | Some m => (Ok m, Tensor None)
  end.

Definition n_dim (this : t) : outcome Z :=
  d <- dl_tensor this ;;
  ret (to_size_t (dlpack.ndim d)).

Definition shape (this : t) (pos : Z) : outcome Z :=
  d <- dl_tensor this ;;
  subscript (dlpack.shape d) pos.

Definition numel (this : t) : outcome Z :=
  n <- n_dim this ;;
  if n =? 0 then ret 0
  else
    for_int (Z.to_nat n) 0
      (fun i numel_ =>
         d <- shape this (to_size_t i) ;;
         ret (to_size_t (numel_ * to_size_t d)))
      1.

Definition EnforceDataType (T : CType) (d : dlpack.DLTensor) : outcome unit :=
  enforce (dlpack.byte_offset d =? 0)
    (ByteOffsetNotZero (dlpack.byte_offset d)) ;;
  enforce (details.IsDataType T (dlpack.dtype d))
    (DataTypeMismatch T (dlpack.code (dlpack.dtype d))
       (dlpack.bits (dlpack.dtype d))).

Definition data (T : CType) (this : t) : outcome dlpack.ptr :=
  d <- dl_tensor this ;;
  EnforceDataType T d ;;
  ret (dlpack.data d).

Definition mutableData (T : CType) (this : t) : outcome dlpack.ptr :=
  d <- dl_tensor this ;;
  EnforceDataType T d ;;
  ret (dlpack.data d).

Definition device_type (this : t) : outcome dlpack.DLDeviceType :=
  d <- dl_tensor this ;;
  ret (dlpack.device_type (dlpack.ctx d)).

(** The destructor, which is that of the member [tensor_]: a [unique_ptr]
    hands its pointer to its deleter unless the pointer is null. *)
Definition destroy (this : t) (calls : list deleter_call) : list deleter_call :=
  match tensor_ this with
  | None => calls
  | Some m => details.DLPackManagedTensorDeleter (Some m) calls
  end.

Definition PrintArray (data : list Z) (n : Z) : writer unit :=
  put (str "(") ;;
  for_size_t (Z.to_nat n) 0
    (fun i _ =>
       (if negb (i =? 0) then put (str ", ") else ret tt) ;;
       x <- lift (subscript data i) ;;
       put (of_int64_t x))
    tt ;;
  put (str ")").

(** The line feed of a ["\n"]. *)
Definition nl : string := String (ascii_of_nat 10) EmptyString.

(** [mem p] is the buffer at [p] read as elements of [T]. *)
Definition Print (T : CType) (mem : dlpack.ptr -> list (value T)) (this : t)
  : writer unit :=
  d <- lift (dl_tensor this) ;;
  (if dlpack.code (dlpack.dtype d) =? dlpack.kDLInt then
     put (str "type: int") ;; put endl
   else if dlpack.code (dlpack.dtype d) =? dlpack.kDLUInt then
     put (str "type: unsigned") ;; put endl
   else if dlpack.code (dlpack.dtype d) =? dlpack.kDLFloat then
     put (str "type float") ;; put endl
   else
     put (str "unrecoginized type") ;; put endl) ;;
  put (str "numel: ") ;; n <- lift (numel this) ;; put (of_size_t n) ;; put endl ;;
  put (str "n_dim: ") ;; k <- lift (n_dim this) ;; put (of_size_t k) ;; put endl ;;
  put (str "stride: ") ;;
  match dlpack.strides d with
  | Some strides => PrintArray strides (to_size_t (dlpack.ndim d))
  | None => put (str "null")
  end ;;
  put (str nl) ;;
  put (str "shape: ") ;;
  PrintArray (dlpack.shape d) (to_size_t (dlpack.ndim d)) ;;
  put (str nl) ;;
  put (str "first 10 elems: (") ;;
  r <- for_int (Z.to_nat n) 0
         (fun i '(cnt, sum) =>
            p <- lift (data T this) ;;
            x <- lift (subscript (mem p) i) ;;
            let sum := (sum + to_double T x)%float in
            (if cnt >=? 0 then
               p <- lift (data T this) ;;
               x <- lift (subscript (mem p) i) ;;
               put (of_elem T x) ;; put (str ", ")
             else ret tt) ;;
            ret (cnt - 1, sum))
         (10, 0%float) ;;
  put (str (")" ++ nl)%string) ;;
  put (str "sum is ") ;; put (of_double (snd r)) ;; put endl.

End Tensor.

End core.

Import core.

(** * Properties *)

(** ** Vocabulary of the statements *)

(** [d0 * ... * dk], the product the spec speaks of. *)
Definition product (l : list Z) : Z := fold_right Z.mul 1 l.

(** From the spec's words, for comparison with the factory's own
    accumulation: [numel] as the product of the shape entries held in a 64-bit
    accumulator. *)
Definition numel_64 (shape_list : list Z) : outcome Z :=
  accumulate to_int64 multiplies_int64_t shape_list 1.

(** The factory's accumulation stays within [int64_t]: each entry, times the
    product of the entries before it as the [int] accumulator holds it, is an
    [int64_t]. Otherwise the multiplication overflows. *)
Definition accumulation_fits (shape_list : list Z) : Prop :=
  forall l1 d l2,
    shape_list = l1 ++ d :: l2 ->
    INT64_MIN <= to_int (product l1) * d <= INT64_MAX.

(** The multiplication of [numel_ *= shape(i)], in [size_t]. *)
Definition mul_size_t (numel_ d : Z) : Z := to_size_t (numel_ * to_size_t d).

(** An operation fails with an error of class [c]. *)
Definition fails_with {A : Type} (c : ErrorClass) (o : outcome A) : Prop :=
  exists e, o = Throw e /\ error_class e = c.

(** A structure received from another library: two dimensions whose sizes
    multiply to [2 ^ 64]. *)
Definition wide_tensor : dlpack.DLManagedTensor :=
  {| dlpack.dl_tensor :=
       {| dlpack.data := dlpack.block 0;
          dlpack.ctx := {| dlpack.device_type := dlpack.kDLCPU;
                           dlpack.device_id := 0 |};
          dlpack.ndim := 2;
          dlpack.dtype := {| dlpack.code := dlpack.kDLFloat;
                             dlpack.bits := 32;
                             dlpack.lanes := 1 |};
          dlpack.shape := [4611686018427387904; 4];
          dlpack.strides := None;
          dlpack.byte_offset := 0 |};
     dlpack.deleter := dlpack.foreign_deleter 0 |}.

(** A structure received from another library: four floats that start eight
    bytes into the buffer. *)
Definition offset_tensor : dlpack.DLManagedTensor :=
  {| dlpack.dl_tensor :=
       {| dlpack.data := dlpack.block 0;
          dlpack.ctx := {| dlpack.device_type := dlpack.kDLCPU;
                           dlpack.device_id := 0 |};
          dlpack.ndim := 1;
          dlpack.dtype := {| dlpack.code := dlpack.kDLFloat;
                             dlpack.bits := 32;
                             dlpack.lanes := 1 |};
          dlpack.shape := [4];
          dlpack.strides := None;
          dlpack.byte_offset := 8 |};
     dlpack.deleter := dlpack.foreign_deleter 0 |}.

(** What a typed view of element type [T] asks of the structure. *)
Definition view_ok (T : CType) (d : dlpack.DLTensor) : Prop :=
  dlpack.byte_offset d = 0 /\
  dlpack.code (dlpack.dtype d) = details.DLPackTypeCode T /\
  (dlpack.bits (dlpack.dtype d) = sizeof T * 8 \/ dlpack.bits (dlpack.dtype d) = 0).

(** The elements a stream holds: how many [os << data<T>()[i]] wrote to it. *)
Definition elems_written (os : ostream) : nat :=
  List.length (filter (fun t => match t with of_elem _ _ => true | _ => false end) os).

(** The [double]s a stream holds. *)
Definition doubles_written (os : ostream) : list float :=
  flat_map (fun t => match t with of_double d => [d] | _ => [] end) os.

(** What the loop of [Print] writes for an element. *)
Definition elem_tokens (T : CType) (x : value T) : ostream :=
  [of_elem T x; str ", "].

(** The line [Print] starts with, by the stored type code. *)
Definition type_label (code : Z) : string :=
  if code =? dlpack.kDLInt then "type: int"
  else if code =? dlpack.kDLUInt then "type: unsigned"
  else if code =? dlpack.kDLFloat then "type float"
  else "unrecoginized type".

(** What [PrintArray] writes between the brackets. *)
Definition array_tokens (l : list Z) : ostream :=
  match l with
  | [] => []
  | x :: l' => of_int64_t x :: flat_map (fun y => [str ", "; of_int64_t y]) l'
  end.

(** What [PrintArray] writes for the entries [l]. *)
Definition printed_array (l : list Z) : ostream :=
  [str "("] ++ array_tokens l ++ [str ")"].

(** [sum] after the loop of [Print] over the elements [l]: they are added
    one by one, in [double], to [0.]. *)
Definition sum_of (T : CType) (l : list (value T)) : float :=
  fold_left (fun s x => (s + to_double T x)%float) l 0%float.

(** An operation does not throw: it returns, or its behaviour is undefined. *)
Definition never_throws {A : Type} (o : outcome A) : Prop :=
  forall e, o <> Throw e.

(** The loop of [Print] and the lines after it, as [Print] has them. *)
Definition Print_elements (T : CType) (mem : dlpack.ptr -> list (value T))
    (this : Tensor.t) (n : Z) : writer unit :=
  (r <- for_int (Z.to_nat n) 0
         (fun i '(cnt, sum) =>
            p <- lift (Tensor.data T this) ;;
            x <- lift (subscript (mem p) i) ;;
            let sum := (sum + to_double T x)%float in
            (if cnt >=? 0 then
               p <- lift (Tensor.data T this) ;;
               x <- lift (subscript (mem p) i) ;;
               put (of_elem T x) ;; put (str ", ")
             else ret tt) ;;
            ret (cnt - 1, sum))
         (10, 0%float) ;;
   put (str (")" ++ Tensor.nl)%string) ;;
   put (str "sum is ") ;; put (of_double (snd r)) ;; put endl)%seq.

(** What [Print] writes before its loop. *)
Definition Print_header (d : dlpack.DLTensor) (n : Z) : ostream :=
  [str (type_label (dlpack.code (dlpack.dtype d))); endl;
   str "numel: "; of_size_t n; endl;
   str "n_dim: "; of_size_t (dlpack.ndim d); endl;
   str "stride: "]
  ++ match dlpack.strides d with
     | Some s => printed_array (firstn (Z.to_nat (dlpack.ndim d)) s)
     | None => [str "null"]
     end
  ++ [str Tensor.nl; str "shape: "]
  ++ printed_array (firstn (Z.to_nat (dlpack.ndim d)) (dlpack.shape d))
  ++ [str Tensor.nl; str "first 10 elems: ("].

(** ** Arithmetic of the conversions *)

Lemma to_int_congr (x k : Z) : to_int (x + k * 2 ^ 32) = to_int x.
Proof.
  unfold to_int.
  replace (x + k * 2 ^ 32 + 2 ^ 31) with (x + 2 ^ 31 + k * 2 ^ 32) by ring.
  now rewrite Z_mod_plus_full.
Qed.

Lemma to_int_eqm (x : Z) : exists k, to_int x = x + k * 2 ^ 32.
Proof.
  exists (- ((x + 2 ^ 31) / 2 ^ 32)). unfold to_int.
  rewrite Z.mod_eq by lia. ring.
Qed.

Lemma to_int_small (x : Z) : INT_MIN <= x <= INT_MAX -> to_int x = x.
Proof.
  unfold to_int, INT_MIN, INT_MAX. intros Hx.
  rewrite Z.mod_small; lia.
Qed.

Lemma to_size_t_small (x : Z) : 0 <= x < 2 ^ 64 -> to_size_t x = x.
Proof. intros Hx. unfold to_size_t. now apply Z.mod_small. Qed.

Lemma to_int_range (x : Z) : INT_MIN <= to_int x <= INT_MAX.
Proof.
  unfold to_int, INT_MIN, INT_MAX.
  pose proof (Z.mod_pos_bound (x + 2 ^ 31) (2 ^ 32)). lia.
Qed.

Lemma multiplies_int64_t_fits (x y : Z) :
  INT64_MIN <= x * y <= INT64_MAX -> multiplies_int64_t x y = Ok (x * y).
Proof.
  intros [Hlo Hhi]. unfold multiplies_int64_t.
  apply Z.leb_le in Hlo. apply Z.leb_le in Hhi. now rewrite Hlo, Hhi.
Qed.

Lemma multiplies_int64_t_overflows (x y : Z) :
  ~ INT64_MIN <= x * y <= INT64_MAX ->
  multiplies_int64_t x y = Undefined SignedOverflow.
Proof.
  intros Hno. unfold multiplies_int64_t.
  destruct (Z.leb_spec INT64_MIN (x * y)); [| reflexivity].
  destruct (Z.leb_spec (x * y) INT64_MAX); [lia | reflexivity].
Qed.

(** One step of the accumulation: the product narrowed to [int] keeps the low
    32 bits of the exact product. *)
Lemma narrowed_step (acc x : Z) : to_int (to_int acc * x) = to_int (acc * x).
Proof.
  destruct (to_int_eqm acc) as [k ->].
  rewrite <- (to_int_congr (acc * x) (k * x)). f_equal. ring.
Qed.

(** What the factory's accumulation computes while no product overflows: the
    product of the entries narrowed to [int]. *)
Lemma accumulate_narrowed (l : list Z) (init : Z) :
  (forall l1 d l2,
     l = l1 ++ d :: l2 ->
     INT64_MIN <= to_int (init * product l1) * d <= INT64_MAX) ->
  accumulate to_int multiplies_int64_t l (to_int init)
  = Ok (to_int (init * product l)).
Proof.
  revert init. induction l as [| d l IH]; intros init Hfits; simpl.
  - now rewrite Z.mul_1_r.
  - rewrite multiplies_int64_t_fits.
    2: { specialize (Hfits [] d l eq_refl). simpl in Hfits.
         now rewrite Z.mul_1_r in Hfits. }
    simpl. rewrite narrowed_step, IH.
    + do 2 f_equal. ring.
    + intros l1 d' l2 Hl. subst l.
      specialize (Hfits (d :: l1) d' l2 eq_refl). simpl in Hfits.
      now rewrite Z.mul_assoc in Hfits.
Qed.

(** And where a product overflows, the accumulation is undefined. *)
Lemma accumulate_overflows (l : list Z) (init : Z) :
  ~ (forall l1 d l2,
       l = l1 ++ d :: l2 ->
       INT64_MIN <= to_int (init * product l1) * d <= INT64_MAX) ->
  accumulate to_int multiplies_int64_t l (to_int init) = Undefined SignedOverflow.
Proof.
  revert init. induction l as [| d l IH]; intros init Hno; simpl.
  - exfalso. apply Hno. intros [| x l1] d l2 Hl; discriminate Hl.
  - destruct (Z.le_gt_cases INT64_MIN (to_int init * d)) as [Hlo | Hlo];
      [destruct (Z.le_gt_cases (to_int init * d) INT64_MAX) as [Hhi | Hhi] |].
    + rewrite multiplies_int64_t_fits by lia. simpl.
      rewrite narrowed_step. apply IH. intros Hrest. apply Hno.
      intros [| x l1] d' l2 Hl; simpl in Hl; injection Hl as -> ->.
      * simpl. now rewrite Z.mul_1_r.
      * simpl. rewrite Z.mul_assoc. now apply (Hrest l1 d' l2).
    + rewrite multiplies_int64_t_overflows by lia. reflexivity.
    + rewrite multiplies_int64_t_overflows by lia. reflexivity.
Qed.

Lemma accumulation_fits_narrowed (shape_list : list Z) :
  accumulation_fits shape_list ->
  accumulate to_int multiplies_int64_t shape_list 1
  = Ok (to_int (product shape_list)).
Proof.
  intros Hfits. change 1 with (to_int 1) at 1.
  rewrite accumulate_narrowed.
  - now rewrite Z.mul_1_l.
  - intros l1 d l2 Hl. rewrite Z.mul_1_l. now apply (Hfits l1 d l2).
Qed.

Lemma accumulation_overflows (shape_list : list Z) :
  ~ accumulation_fits shape_list ->
  accumulate to_int multiplies_int64_t shape_list 1 = Undefined SignedOverflow.
Proof.
  intros Hno. change 1 with (to_int 1) at 1.
  apply accumulate_overflows. intros Hfits. apply Hno.
  intros l1 d l2 Hl. specialize (Hfits l1 d l2 Hl).
  now rewrite Z.mul_1_l in Hfits.
Qed.

(** Entries in [(-2 ^ 32, 2 ^ 32]] cannot overflow the accumulation. *)
Lemma accumulation_fits_small (shape_list : list Z) :
  Forall (fun d => - 2 ^ 32 < d <= 2 ^ 32) shape_list ->
  accumulation_fits shape_list.
Proof.
  intros Hall l1 d l2 Hl. subst shape_list.
  apply Forall_app in Hall as [_ Hd]. apply Forall_inv in Hd.
  pose proof (to_int_range (product l1)) as Ha.
  unfold INT_MIN, INT_MAX, INT64_MIN, INT64_MAX in *.
  change (2 ^ 31) with 2147483648 in *.
  change (2 ^ 32) with 4294967296 in *.
  change (2 ^ 63) with 9223372036854775808.
  nia.
Qed.

Lemma accumulation_fits_check (shape_list : list Z) :
  forallb (fun d => (- 2 ^ 32 <? d) && (d <=? 2 ^ 32)) shape_list = true ->
  accumulation_fits shape_list.
Proof.
  intros Hall. apply accumulation_fits_small. apply Forall_forall.
  intros d Hd. rewrite forallb_forall in Hall. specialize (Hall d Hd).
  apply andb_true_iff in Hall as [Hlo Hhi].
  apply Z.ltb_lt in Hlo. apply Z.leb_le in Hhi. lia.
Qed.


(** ** The loops *)

Lemma subscript_nth {A : Type} (arr : list A) (n : nat) (x : A) :
  nth_error arr n = Some x -> subscript arr (Z.of_nat n) = Ok x.
Proof.
  intros Hn. unfold subscript.
  assert (n < List.length arr)%nat by (apply nth_error_Some; congruence).
  replace (0 <=? Z.of_nat n) with true by (symmetry; apply Z.leb_le; lia).
  replace (Z.of_nat n <? Z.of_nat (List.length arr)) with true
    by (symmetry; apply Z.ltb_lt; lia).
  simpl. now rewrite Nat2Z.id, Hn.
Qed.

Lemma mul_size_t_idem (acc d : Z) :
  mul_size_t (to_size_t acc) d = to_size_t (acc * d).
Proof.
  unfold mul_size_t, to_size_t.
  rewrite Z.mul_mod_idemp_l, Z.mul_mod_idemp_r by lia. reflexivity.
Qed.

Lemma fold_mul_size_t (l : list Z) (acc : Z) :
  fold_left mul_size_t l (to_size_t acc) = to_size_t (acc * product l).
Proof.
  revert acc. induction l as [| d l IH]; intros acc; simpl.
  - now rewrite Z.mul_1_r.
  - rewrite mul_size_t_idem, IH. f_equal. ring.
Qed.

(** The loop of [numel()] over an array that holds the entries it reads: it
    multiplies the entries [i, i + trips) into the accumulator. *)
Lemma numel_loop (m : dlpack.DLManagedTensor) (trips : nat) :
  forall (i : nat) (acc : Z),
    Z.of_nat i + Z.of_nat trips <= INT_MAX ->
    (i + trips <= List.length (dlpack.shape (dlpack.dl_tensor m)))%nat ->
    for_int trips (Z.of_nat i)
      (fun i numel_ =>
         d <- Tensor.shape (Tensor.Tensor (Some m)) (to_size_t i) ;;
         ret (to_size_t (numel_ * to_size_t d)))
      acc
    = Ok (fold_left mul_size_t
            (firstn trips (skipn i (dlpack.shape (dlpack.dl_tensor m)))) acc).
Proof.
  induction trips as [| trips IH]; intros i acc Hmax Hlen; simpl.
  - reflexivity.
  - destruct (nth_error (dlpack.shape (dlpack.dl_tensor m)) i) as [d |] eqn:Hd.
    2: { apply nth_error_None in Hd. lia. }
    unfold Tensor.shape at 1. simpl.
    rewrite to_size_t_small by (unfold INT_MAX in Hmax; lia).
    rewrite (subscript_nth _ _ _ Hd).
    replace (Z.of_nat i =? INT_MAX) with false by (symmetry; apply Z.eqb_neq; lia).
    replace (Z.of_nat i + 1) with (Z.of_nat (S i)) by lia.
    rewrite IH by lia.
    destruct (nth_error_split _ _ Hd) as (l1 & l2 & Hs & Hl1).
    rewrite Hs. subst i.
    assert (Hs1 : skipn (S (List.length l1)) (l1 ++ d :: l2) = l2)
      by (clear; induction l1; simpl; auto).
    assert (Hs0 : skipn (List.length l1) (l1 ++ d :: l2) = d :: l2)
      by (clear; induction l1; simpl; auto).
    rewrite Hs0, Hs1. reflexivity.
Qed.

(** [numel()] of a handle whose [ndim] is positive and whose shape array holds
    [ndim] entries: the product of these, in [size_t]. *)
Lemma numel_positive (m : dlpack.DLManagedTensor) :
  let d := dlpack.dl_tensor m in
  0 < dlpack.ndim d <= INT_MAX ->
  dlpack.ndim d <= Z.of_nat (List.length (dlpack.shape d)) ->
  Tensor.numel (Tensor.Tensor (Some m))
  = Ok (to_size_t (product (firstn (Z.to_nat (dlpack.ndim d)) (dlpack.shape d)))).
Proof.
  intros d Hn Hlen. unfold Tensor.numel, Tensor.n_dim. simpl. fold d.
  rewrite to_size_t_small by (unfold INT_MAX in Hn; lia).
  replace (dlpack.ndim d =? 0) with false by (symmetry; apply Z.eqb_neq; lia).
  etransitivity.
  { apply (numel_loop m (Z.to_nat (dlpack.ndim d)) 0 1); fold d; simpl; lia. }
  simpl. fold d. f_equal.
  change 1 with (to_size_t 1) at 1.
  rewrite fold_mul_size_t. f_equal. lia.
Qed.

(** ** The factory *)


(** The structure the factory builds for a non-empty list whose accumulation
    stays within [int64_t], and the three requests it makes of the free
    store. *)
Lemma CreateDLPackTensor_succeeds (T : CType) (shape_list : list Z) (h : heap) :
  shape_list <> [] ->
  accumulation_fits shape_list ->
  CreateDLPackTensor T shape_list h =
  (Ok {| dlpack.dl_tensor :=
           {| dlpack.data := dlpack.block (List.length h + 2);
              dlpack.ctx := {| dlpack.device_type := dlpack.kDLCPU;
                               dlpack.device_id := 0 |};
              dlpack.ndim := to_int (size shape_list);
              dlpack.dtype :=
                {| dlpack.code := details.DLPackTypeCode T;
                   dlpack.bits := sizeof T * 8;
                   dlpack.lanes := 1 |};
              dlpack.shape := shape_list;
              dlpack.strides := None;
              dlpack.byte_offset := 0 |};
         dlpack.deleter := dlpack.DLManagedTensorDeletor |},
   h ++ [new_DLManagedTensor; new_int64_array (size shape_list);
         align_alloc T (to_size_t (to_int (product shape_list)))]).
Proof.
  intros Hne Hfits. unfold CreateDLPackTensor.
  replace (size shape_list =? 0) with false.
  2: { symmetry. apply Z.eqb_neq. unfold size.
       destruct shape_list; [congruence | simpl; lia]. }
  rewrite (accumulation_fits_narrowed _ Hfits).
  unfold enforce, align_alloc_t, allocate. cbn [negb].
  rewrite !length_app, <- !app_assoc. simpl.
  replace (List.length h + 1 + 1)%nat with (List.length h + 2)%nat by lia.
  destruct T; reflexivity.
Qed.

(** C9: for every supported element type, the factory called with an empty
    shape list fails with the InvalidArgument-class error of its first
    statement, and the free store is as it was: nothing has been allocated. *)
Theorem CreateDLPackTensor_empty_shape_list (T : CType) (h : heap) :
  CreateDLPackTensor T [] h = (Throw ShapeListEmpty, h) /\
  fails_with InvalidArgument (fst (CreateDLPackTensor T [] h)) /\
  snd (CreateDLPackTensor T [] h) = h.
Proof.
  repeat split. exists ShapeListEmpty. split; reflexivity.
Qed.

(** C1, at [{65536, 65536}]: the spec's 64-bit accumulation gives
    [4294967296], the product; the factory's accumulator is an [int] (the type
    of the literal [1] it starts from), the product narrows to [0], and the
    buffer is requested with [0] elements, for a tensor whose [numel()] is
    [4294967296]. *)
Theorem CreateDLPackTensor_numel_narrowed (T : CType) (h : heap) :
  numel_64 [65536; 65536] = Ok 4294967296 /\
  product [65536; 65536] = 4294967296 /\
  accumulate to_int multiplies_int64_t [65536; 65536] 1 = Ok 0 /\
  exists m,
    CreateDLPackTensor T [65536; 65536] h
    = (Ok m, h ++ [new_DLManagedTensor; new_int64_array 2; align_alloc T 0]) /\
    Tensor.numel (Tensor.Tensor (Some m)) = Ok 4294967296.
Proof.
  repeat split. eexists. split.
  - rewrite CreateDLPackTensor_succeeds
      by (discriminate || (apply accumulation_fits_check; reflexivity)).
    reflexivity.
  - reflexivity.
Qed.

(** X2: the count the factory asks the allocator for, for every non-empty
    list whose accumulation stays within [int64_t]: the product of the entries
    narrowed to [int] and then converted to [size_t]; the three requests it
    makes are the structure, the shape array and the data buffer, in this
    order. *)
Theorem CreateDLPackTensor_requests (T : CType) (shape_list : list Z) (h : heap) :
  shape_list <> [] ->
  accumulation_fits shape_list ->
  accumulate to_int multiplies_int64_t shape_list 1
  = Ok (to_int (product shape_list)) /\
  snd (CreateDLPackTensor T shape_list h)
  = h ++ [new_DLManagedTensor; new_int64_array (size shape_list);
          align_alloc T (to_size_t (to_int (product shape_list)))].
Proof.
  intros Hne Hfits. split.
  - now apply accumulation_fits_narrowed.
  - now rewrite CreateDLPackTensor_succeeds.
Qed.

Lemma CreateDLPackTensor_requests_witness :
  [46341; 46341] <> [] /\
  accumulation_fits [46341; 46341] /\
  accumulate to_int multiplies_int64_t [46341; 46341] 1
  = Ok (to_int (product [46341; 46341])) /\
  snd (CreateDLPackTensor c_int [46341; 46341] [])
  = [] ++ [new_DLManagedTensor; new_int64_array (size [46341; 46341]);
           align_alloc c_int (to_size_t (to_int (product [46341; 46341])))].
Proof.
  split; [discriminate |].
  split; [apply accumulation_fits_check; reflexivity |].
  apply (CreateDLPackTensor_requests c_int [46341; 46341] []).
  - discriminate.
  - apply accumulation_fits_check; reflexivity.
Defined.



(** C4, as stated, at [{4294967296, 4294967296}]: the factory returns a
    tensor, its [numel()] is [0], and the product of the entries is [2 ^ 64]. *)
Lemma numel_of_created_tensor_wraps :
  exists m h',
    CreateDLPackTensor c_float [4294967296; 4294967296] [] = (Ok m, h') /\
    Tensor.numel (Tensor.Tensor (Some m)) = Ok 0 /\
    Tensor.numel (Tensor.Tensor (Some m))
    <> Ok (product [4294967296; 4294967296]).
Proof.
  eexists. eexists. split; [reflexivity |]. split; [reflexivity |].
  vm_compute. discriminate.
Qed.

(** C4, amended: for every supported element type and every non-empty shape
    list [[d0, ..., dk]] (a braced initializer list, its size within [int])
    whose accumulation in the factory stays within [int64_t], the factory
    returns a tensor and its handle has [numel()] equal to
    [d0 * ... * dk] modulo [2 ^ 64], which is the product itself when that
    lies in [[0, 2 ^ 64)]; [n_dim()] is [k + 1]; and [shape(i)] is [di] for
    every [i] in [[0, k]]. *)
Theorem created_tensor_numel_n_dim_shape
    (T : CType) (shape_list : list Z) (h : heap) :
  shape_list <> [] ->
  size shape_list <= INT_MAX ->
  accumulation_fits shape_list ->
  exists m h',
    CreateDLPackTensor T shape_list h = (Ok m, h') /\
    let t := Tensor.Tensor (Some m) in
    Tensor.numel t = Ok (product shape_list mod 2 ^ 64) /\
    (0 <= product shape_list < 2 ^ 64 -> Tensor.numel t = Ok (product shape_list)) /\
    Tensor.n_dim t = Ok (Z.of_nat (List.length shape_list)) /\
    (forall (i : nat) (d : Z),
       nth_error shape_list i = Some d -> Tensor.shape t (Z.of_nat i) = Ok d).
Proof.
  intros Hne Hsize Hfits. eexists. eexists.
  split; [apply CreateDLPackTensor_succeeds; assumption |].
  assert (Hpos : 0 < size shape_list)
    by (unfold size; destruct shape_list; [congruence | simpl; lia]).
  assert (Hndim : to_int (size shape_list) = size shape_list)
    by (apply to_int_small; unfold INT_MIN; lia).
  assert (Hnumel : forall m, dlpack.dl_tensor m =
            {| dlpack.data := dlpack.block (List.length h + 2);
               dlpack.ctx := {| dlpack.device_type := dlpack.kDLCPU;
                                dlpack.device_id := 0 |};
               dlpack.ndim := to_int (size shape_list);
               dlpack.dtype :=
                 {| dlpack.code := details.DLPackTypeCode T;
                    dlpack.bits := sizeof T * 8;
                    dlpack.lanes := 1 |};
               dlpack.shape := shape_list;
               dlpack.strides := None;
               dlpack.byte_offset := 0 |} ->
            Tensor.numel (Tensor.Tensor (Some m)) = Ok (product shape_list mod 2 ^ 64)).
  { intros m Hm. rewrite numel_positive; rewrite Hm; simpl; rewrite Hndim.
    - unfold size. rewrite Nat2Z.id, firstn_all. reflexivity.
    - lia.
    - unfold size. lia. }
  cbv zeta. split; [apply Hnumel; reflexivity |].
  split.
  { intros Hp. rewrite Hnumel by reflexivity. now rewrite Z.mod_small. }
  split.
  { unfold Tensor.n_dim. simpl. rewrite Hndim.
    rewrite to_size_t_small by (unfold INT_MAX in Hsize; lia). reflexivity. }
  intros i d Hd. unfold Tensor.shape. simpl. now apply subscript_nth.
Qed.

Lemma created_tensor_numel_n_dim_shape_witness :
  [2; 3] <> [] /\
  size [2; 3] <= INT_MAX /\
  accumulation_fits [2; 3] /\
  exists m h',
    CreateDLPackTensor c_int64_t [2; 3] [] = (Ok m, h') /\
    let t := Tensor.Tensor (Some m) in
    Tensor.numel t = Ok (product [2; 3] mod 2 ^ 64) /\
    (0 <= product [2; 3] < 2 ^ 64 -> Tensor.numel t = Ok (product [2; 3])) /\
    Tensor.n_dim t = Ok (Z.of_nat (List.length [2; 3])) /\
    (forall (i : nat) (d : Z),
       nth_error [2; 3] i = Some d -> Tensor.shape t (Z.of_nat i) = Ok d).
Proof.
  split; [discriminate |].
  split; [vm_compute; discriminate |].
  split; [apply accumulation_fits_check; reflexivity |].
  apply (created_tensor_numel_n_dim_shape c_int64_t [2; 3] []).
  - discriminate.
  - vm_compute. discriminate.
  - apply accumulation_fits_check; reflexivity.
Defined.

(** ** The handle *)

(** C6: [ToDLPack()] on a handle that owns a structure returns the structure
    and leaves [tensor_] null; [ToDLPack()] once more on that handle fails with
    the Precondition-class error. *)
Theorem ToDLPack_then_ToDLPack (m : dlpack.DLManagedTensor) :
  let this := Tensor.Tensor (Some m) in
  Tensor.ToDLPack this = (Ok m, Tensor.Tensor None) /\
  Tensor.tensor_ (snd (Tensor.ToDLPack this)) = None /\
  fst (Tensor.ToDLPack (snd (Tensor.ToDLPack this))) = Throw TensorEmpty /\
  fails_with Precondition (fst (Tensor.ToDLPack (snd (Tensor.ToDLPack this)))).
Proof.
  repeat split. exists TensorEmpty. split; reflexivity.
Qed.

(** C7: the tensor the factory returns (for a non-empty list whose
    accumulation stays within [int64_t]) is put in a handle, the handle's
    structure is taken out with [ToDLPack()] and given to a new handle. The new
    handle answers [n_dim()], [shape(i)] for every [i], and [device_type()] as
    the first one did, and its data pointer is the block the factory
    allocated: the same buffer. *)
Theorem ToDLPack_round_trip (T : CType) (shape_list : list Z) (h : heap) :
  shape_list <> [] ->
  accumulation_fits shape_list ->
  exists m h' exported,
    CreateDLPackTensor T shape_list h = (Ok m, h') /\
    let original := Tensor.Tensor (Some m) in
    Tensor.ToDLPack original = (Ok exported, Tensor.Tensor None) /\
    let wrapped := Tensor.Tensor (Some exported) in
    Tensor.n_dim wrapped = Tensor.n_dim original /\
    (exists n, Tensor.n_dim wrapped = Ok n) /\
    (forall pos, Tensor.shape wrapped pos = Tensor.shape original pos) /\
    (forall (i : nat) (d : Z),
       nth_error shape_list i = Some d ->
       Tensor.shape wrapped (Z.of_nat i) = Ok d) /\
    Tensor.device_type wrapped = Tensor.device_type original /\
    Tensor.device_type wrapped = Ok dlpack.kDLCPU /\
    Tensor.data T wrapped = Tensor.data T original /\
    Tensor.mutableData T wrapped = Tensor.mutableData T original /\
    Tensor.data T wrapped = Ok (dlpack.block (List.length h + 2)) /\
    nth_error h' (List.length h + 2) = Some (align_alloc T
      (to_size_t (to_int (product shape_list)))).
Proof.
  intros Hne Hfits. eexists. eexists. eexists.
  split; [apply CreateDLPackTensor_succeeds; assumption |].
  cbv zeta. split; [reflexivity |].
  repeat split.
  - eexists. reflexivity.
  - intros i d Hd. unfold Tensor.shape. simpl. now apply subscript_nth.
  - unfold Tensor.data. simpl. destruct T; reflexivity.
  - rewrite nth_error_app2 by lia.
    replace (List.length h + 2 - List.length h)%nat with 2%nat by lia.
    reflexivity.
Qed.

Lemma ToDLPack_round_trip_witness :
  [2; 3] <> [] /\
  accumulation_fits [2; 3] /\
  exists m h' exported,
    CreateDLPackTensor c_float [2; 3] [] = (Ok m, h') /\
    let original := Tensor.Tensor (Some m) in
    Tensor.ToDLPack original = (Ok exported, Tensor.Tensor None) /\
    let wrapped := Tensor.Tensor (Some exported) in
    Tensor.n_dim wrapped = Tensor.n_dim original /\
    (exists n, Tensor.n_dim wrapped = Ok n) /\
    (forall pos, Tensor.shape wrapped pos = Tensor.shape original pos) /\
    (forall (i : nat) (d : Z),
       nth_error [2; 3] i = Some d ->
       Tensor.shape wrapped (Z.of_nat i) = Ok d) /\
    Tensor.device_type wrapped = Tensor.device_type original /\
    Tensor.device_type wrapped = Ok dlpack.kDLCPU /\
    Tensor.data c_float wrapped = Tensor.data c_float original /\
    Tensor.mutableData c_float wrapped = Tensor.mutableData c_float original /\
    Tensor.data c_float wrapped = Ok (dlpack.block (List.length (@nil allocation) + 2)) /\
    nth_error h' (List.length (@nil allocation) + 2) = Some (align_alloc c_float
      (to_size_t (to_int (product [2; 3])))).
Proof.
  split; [discriminate |].
  split; [apply accumulation_fits_check; reflexivity |].
  apply (ToDLPack_round_trip c_float [2; 3] []).
  - discriminate.
  - apply accumulation_fits_check; reflexivity.
Defined.

(** C8, as stated, at a handle of two dimensions [2 ^ 62] and [4]:
    [numel()] is [0], the product of the sizes is [2 ^ 64]. *)
Lemma numel_wraps :
  0 < dlpack.ndim (dlpack.dl_tensor wide_tensor) /\
  Tensor.numel (Tensor.Tensor (Some wide_tensor)) = Ok 0 /\
  Tensor.numel (Tensor.Tensor (Some wide_tensor))
  <> Ok (product (dlpack.shape (dlpack.dl_tensor wide_tensor))).
Proof.
  split; [reflexivity |]. split; [reflexivity |]. vm_compute. discriminate.
Qed.

(** C8, amended: for every handle whose structure has [ndim == 0], [numel()]
    returns [0] (not [1]); for every handle whose [ndim] is positive (an [int])
    and whose shape array holds the [ndim] sizes, [numel()] returns the
    product of these sizes modulo [2 ^ 64], which is the product itself when
    that lies in [[0, 2 ^ 64)]. *)
Theorem numel_by_ndim (m : dlpack.DLManagedTensor) :
  let d := dlpack.dl_tensor m in
  let this := Tensor.Tensor (Some m) in
  let sizes := firstn (Z.to_nat (dlpack.ndim d)) (dlpack.shape d) in
  (dlpack.ndim d = 0 -> Tensor.numel this = Ok 0) /\
  (0 < dlpack.ndim d <= INT_MAX ->
   dlpack.ndim d <= Z.of_nat (List.length (dlpack.shape d)) ->
   Tensor.numel this = Ok (product sizes mod 2 ^ 64) /\
   (0 <= product sizes < 2 ^ 64 -> Tensor.numel this = Ok (product sizes))).
Proof.
  intros d this sizes. split.
  - intros H0. unfold Tensor.numel, Tensor.n_dim. simpl. fold d.
    rewrite H0. reflexivity.
  - intros Hn Hlen.
    assert (H : Tensor.numel this = Ok (product sizes mod 2 ^ 64))
      by (apply numel_positive; assumption).
    split; [exact H |]. intros Hp. rewrite H. now rewrite Z.mod_small.
Qed.

Lemma numel_by_ndim_witness :
  Tensor.numel (Tensor.Tensor (Some offset_tensor)) = Ok (product [4] mod 2 ^ 64) /\
  (0 <= product [4] < 2 ^ 64 ->
   Tensor.numel (Tensor.Tensor (Some offset_tensor)) = Ok (product [4])).
Proof.
  apply (proj2 (numel_by_ndim offset_tensor)).
  - vm_compute. split; [reflexivity | discriminate].
  - vm_compute. discriminate.
Defined.

(** C5, as stated, at a handle whose structure has [byte_offset == 8]: the
    typed view fails, and the failure is the one of the byte offset check,
    which names neither the requested nor the actual type. *)
Lemma typed_view_byte_offset_failure :
  ~ view_ok c_float (dlpack.dl_tensor offset_tensor) /\
  Tensor.data c_float (Tensor.Tensor (Some offset_tensor))
  = Throw (ByteOffsetNotZero 8) /\
  ~ (exists e,
       Tensor.data c_float (Tensor.Tensor (Some offset_tensor)) = Throw e /\
       error_class e = TypeMismatch /\
       names_types e c_float (dlpack.dtype (dlpack.dl_tensor offset_tensor))).
Proof.
  split; [intros [H _]; discriminate |]. split; [reflexivity |].
  intros (e & He & _ & Hn). unfold names_types in Hn. subst e. discriminate.
Qed.

Lemma IsDataType_spec (T : CType) (dt : dlpack.DLDataType) :
  details.IsDataType T dt = true <->
  dlpack.code dt = details.DLPackTypeCode T /\
  (dlpack.bits dt = sizeof T * 8 \/ dlpack.bits dt = 0).
Proof.
  unfold details.IsDataType.
  rewrite andb_true_iff, orb_true_iff, !Z.eqb_eq. intuition congruence.
Qed.

(** C5, amended: for every handle that owns a structure and every element
    type [T], [data<T>()] and [mutableData<T>()] return the structure's data
    pointer if and only if [byte_offset] is [0], the stored type code is the
    code registered for [T], and the stored bit width is that of [T] or [0];
    otherwise they throw a TypeMismatch-class failure: the byte offset
    failure, which names no type, when [byte_offset] is not [0], and else the
    failure that names the requested type and the actual code and bits. *)
Theorem typed_view (T : CType) (m : dlpack.DLManagedTensor) :
  let d := dlpack.dl_tensor m in
  let this := Tensor.Tensor (Some m) in
  (Tensor.data T this = Ok (dlpack.data d) <-> view_ok T d) /\
  (Tensor.mutableData T this = Ok (dlpack.data d) <-> view_ok T d) /\
  ((exists p, Tensor.data T this = Ok p) <-> view_ok T d) /\
  (~ view_ok T d ->
   fails_with TypeMismatch (Tensor.data T this) /\
   fails_with TypeMismatch (Tensor.mutableData T this)) /\
  (dlpack.byte_offset d <> 0 ->
   Tensor.data T this = Throw (ByteOffsetNotZero (dlpack.byte_offset d)) /\
   Tensor.mutableData T this = Throw (ByteOffsetNotZero (dlpack.byte_offset d))) /\
  (dlpack.byte_offset d = 0 -> ~ view_ok T d ->
   let e := DataTypeMismatch T (dlpack.code (dlpack.dtype d))
              (dlpack.bits (dlpack.dtype d)) in
   names_types e T (dlpack.dtype d) /\
   Tensor.data T this = Throw e /\ Tensor.mutableData T this = Throw e).
Proof.
  intros d this.
  change (Tensor.mutableData T this) with (Tensor.data T this).
  unfold Tensor.data, Tensor.EnforceDataType, view_ok, fails_with, enforce.
  simpl. fold d.
  pose proof (IsDataType_spec T (dlpack.dtype d)) as Hspec.
  destruct (Z.eqb_spec (dlpack.byte_offset d) 0) as [H0 | H0];
    destruct (details.IsDataType T (dlpack.dtype d)) eqn:Hty; simpl;
    repeat split; intros; unfold names_types in *;
    solve [ tauto | congruence | discriminate | reflexivity
          | eexists; split; reflexivity
          | eexists; reflexivity
          | apply Hspec; reflexivity
          | match goal with H : exists _, _ |- _ => destruct H; discriminate end
          | exfalso;
            match goal with
            | H : ~ _ |- _ => apply H; split; [assumption | apply Hspec; reflexivity]
            | H : _ /\ _ |- _ =>
                destruct H as [_ H]; apply Hspec in H; discriminate
            end ].
Qed.

Lemma typed_view_witness :
  exists m h',
    CreateDLPackTensor c_float [2; 3] [] = (Ok m, h') /\
    Tensor.data c_float (Tensor.Tensor (Some m)) = Ok (dlpack.data (dlpack.dl_tensor m)) /\
    fails_with TypeMismatch (Tensor.data c_int64_t (Tensor.Tensor (Some m))).
Proof.
  eexists. eexists. split; [reflexivity |]. split.
  - apply (proj1 (typed_view c_float _)). vm_compute. auto.
  - apply (proj1 (proj2 (proj2 (proj2 (typed_view c_int64_t _))))).
    intros (_ & _ & [H | H]); vm_compute in H; discriminate.
Defined.

(** C3, as stated, at the handle a created tensor was exported from:
    [n_dim()] and [data<float>()] on it do not fail with a Precondition-class
    error. *)
Lemma queries_of_exported_handle_not_checked :
  exists m h',
    CreateDLPackTensor c_float [2; 3] [] = (Ok m, h') /\
    fst (Tensor.ToDLPack (Tensor.Tensor (Some m))) = Ok m /\
    ~ fails_with Precondition
        (Tensor.n_dim (snd (Tensor.ToDLPack (Tensor.Tensor (Some m))))) /\
    ~ fails_with Precondition
        (Tensor.data c_float (snd (Tensor.ToDLPack (Tensor.Tensor (Some m))))).
Proof.
  eexists. eexists. split; [reflexivity |]. split; [reflexivity |].
  split; intros (e & He & _); discriminate.
Qed.

(** C3, amended: on the handle left by a successful [ToDLPack()], a second
    [ToDLPack()] fails fast with the Precondition-class error and leaves the
    handle empty. The other member functions make no check of the handle's
    state: [n_dim], [shape], [numel], [data], [mutableData], [device_type] and
    [Print] dereference the null [tensor_], which is undefined behaviour and
    not a thrown failure; [Print] has written nothing by then. *)
Theorem operations_on_exported_handle (m : dlpack.DLManagedTensor) :
  let empty := snd (Tensor.ToDLPack (Tensor.Tensor (Some m))) in
  Tensor.tensor_ empty = None /\
  fails_with Precondition (fst (Tensor.ToDLPack empty)) /\
  snd (Tensor.ToDLPack empty) = empty /\
  Tensor.n_dim empty = Undefined NullDereference /\
  (forall pos, Tensor.shape empty pos = Undefined NullDereference) /\
  Tensor.numel empty = Undefined NullDereference /\
  (forall T, Tensor.data T empty = Undefined NullDereference) /\
  (forall T, Tensor.mutableData T empty = Undefined NullDereference) /\
  Tensor.device_type empty = Undefined NullDereference /\
  (forall T mem os, Tensor.Print T mem empty os = (Undefined NullDereference, os)).
Proof.
  repeat split. exists TensorEmpty. split; reflexivity.
Qed.

(** ** Print *)

(** X3, the spec's diagnostic scenario: the float tensor of shape [{5}] holding
    [1, 2, 3, 4, 5] is printed with [numel] 5, all five elements, and the sum
    [15]. *)
Lemma Print_five_floats :
  exists m h',
    CreateDLPackTensor c_float [5] [] = (Ok m, h') /\
    Tensor.Print c_float (fun _ => [1; 2; 3; 4; 5]%float)
      (Tensor.Tensor (Some m)) []
    = (Ok tt,
       [str "type float"; endl;
        str "numel: "; of_size_t 5; endl;
        str "n_dim: "; of_size_t 1; endl;
        str "stride: "; str "null"; str Tensor.nl;
        str "shape: "; str "("; of_int64_t 5; str ")"; str Tensor.nl;
        str "first 10 elems: ("]
       ++ flat_map (elem_tokens c_float) [1; 2; 3; 4; 5]%float
       ++ [str (")" ++ Tensor.nl); str "sum is "; of_double 15%float; endl]).
Proof.
  eexists. eexists. split; [reflexivity |]. vm_compute. reflexivity.
Qed.

(** C2, at a float tensor of shape [{11}]: under the heading
    [first 10 elems] the loop writes eleven elements, since [cnt-- >= 0] holds
    for [cnt] from [10] down to [0]; the sum, [66], is that of all eleven. *)
Theorem Print_writes_eleven_elements :
  exists m h' os,
    CreateDLPackTensor c_float [11] [] = (Ok m, h') /\
    Tensor.numel (Tensor.Tensor (Some m)) = Ok 11 /\
    Tensor.Print c_float (fun _ => [1; 2; 3; 4; 5; 6; 7; 8; 9; 10; 11]%float)
      (Tensor.Tensor (Some m)) [] = (Ok tt, os) /\
    In (str "first 10 elems: (") os /\
    elems_written os = 11%nat /\
    doubles_written os = [66%float].
Proof.
  eexists. eexists. eexists. split; [reflexivity |]. split; [reflexivity |].
  split; [vm_compute; reflexivity |].
  split; [| split; vm_compute; reflexivity].
  do 16 right. left. reflexivity.
Qed.

(** *** Running a writer *)

Lemma bind_run {A B : Type} (c : writer A) (k : A -> writer B)
    (os os' : ostream) (a : A) :
  c os = (Ok a, os') -> bind c k os = k a os'.
Proof. intros H. simpl. now rewrite H. Qed.

Lemma skipn_nth {A : Type} (arr : list A) (i : nat) (x : A) :
  nth_error arr i = Some x -> skipn i arr = x :: skipn (S i) arr.
Proof.
  revert i. induction arr as [| a arr IH]; intros [| i]; simpl; try discriminate.
  - congruence.
  - intros H. now apply IH.
Qed.

(** The loop of [PrintArray] from an index past the first: every entry comes
    after a separator. *)
Lemma PrintArray_loop (arr : list Z) (trips : nat) :
  forall (i : nat) (os : ostream),
    (0 < i)%nat ->
    (i + trips <= List.length arr)%nat ->
    for_size_t trips (Z.of_nat i)
      (fun i _ =>
         (if negb (i =? 0) then put (str ", ") else ret tt) ;;
         x <- lift (subscript arr i) ;;
         put (of_int64_t x))
      tt os
    = (Ok tt,
       os ++ flat_map (fun y => [str ", "; of_int64_t y]) (firstn trips (skipn i arr))).
Proof.
  induction trips as [| trips IH]; intros i os Hi Hlen.
  - simpl. now rewrite app_nil_r.
  - destruct (nth_error arr i) as [x |] eqn:Hx.
    2: { apply nth_error_None in Hx. lia. }
    cbn [for_size_t].
    rewrite (subscript_nth _ _ _ Hx).
    replace (Z.of_nat i =? 0) with false by (symmetry; apply Z.eqb_neq; lia).
    replace (Z.of_nat i + 1) with (Z.of_nat (S i)) by lia.
    cbn [bind Sequenced_writer lift ret put negb].
    rewrite IH by lia.
    rewrite (skipn_nth _ _ _ Hx). simpl.
    rewrite <- !app_assoc. reflexivity.
Qed.

Lemma PrintArray_loop_0 (arr : list Z) (trips : nat) (os : ostream) :
  (trips <= List.length arr)%nat ->
  for_size_t trips 0
    (fun i _ =>
       (if negb (i =? 0) then put (str ", ") else ret tt) ;;
       x <- lift (subscript arr i) ;;
       put (of_int64_t x))
    tt os
  = (Ok tt, os ++ array_tokens (firstn trips arr)).
Proof.
  intros Hlen. destruct trips as [| trips].
  - simpl. now rewrite app_nil_r.
  - destruct arr as [| x arr]; [simpl in Hlen; lia |].
    cbn [for_size_t].
    erewrite bind_run by reflexivity.
    change (0 + 1) with (Z.of_nat 1).
    rewrite PrintArray_loop by (simpl in *; lia).
    simpl. rewrite <- app_assoc. reflexivity.
Qed.

Lemma PrintArray_run (arr : list Z) (n : Z) (os : ostream) :
  0 <= n <= Z.of_nat (List.length arr) ->
  Tensor.PrintArray arr n os
  = (Ok tt, os ++ printed_array (firstn (Z.to_nat n) arr)).
Proof.
  intros Hn. unfold Tensor.PrintArray, printed_array.
  erewrite bind_run by reflexivity.
  erewrite bind_run by (apply PrintArray_loop_0; lia).
  unfold put. rewrite <- !app_assoc. reflexivity.
Qed.

Lemma type_label_run (code : Z) (os : ostream) :
  (if code =? dlpack.kDLInt then put (str "type: int") ;; put endl
   else if code =? dlpack.kDLUInt then put (str "type: unsigned") ;; put endl
   else if code =? dlpack.kDLFloat then put (str "type float") ;; put endl
   else put (str "unrecoginized type") ;; put endl) os
  = (Ok tt, os ++ [str (type_label code); endl]).
Proof.
  unfold type_label.
  destruct (code =? dlpack.kDLInt); [| destruct (code =? dlpack.kDLUInt);
    [| destruct (code =? dlpack.kDLFloat)]];
    unfold put; simpl; rewrite <- app_assoc; reflexivity.
Qed.

Lemma strides_run (strides : option (list Z)) (n : Z) (os : ostream) :
  (forall s, strides = Some s -> 0 <= n <= Z.of_nat (List.length s)) ->
  match strides with
  | Some s => Tensor.PrintArray s n
  | None => put (str "null")
  end os
  = (Ok tt,
     os ++ match strides with
           | Some s => printed_array (firstn (Z.to_nat n) s)
           | None => [str "null"]
           end).
Proof.
  intros Hs. destruct strides as [s |].
  - apply PrintArray_run. now apply Hs.
  - reflexivity.
Qed.

(** *** Counting what was written *)

Lemma elems_written_app (a b : ostream) :
  elems_written (a ++ b) = (elems_written a + elems_written b)%nat.
Proof. unfold elems_written. now rewrite filter_app, length_app. Qed.

Lemma doubles_written_app (a b : ostream) :
  doubles_written (a ++ b) = doubles_written a ++ doubles_written b.
Proof. unfold doubles_written. apply flat_map_app. Qed.

Lemma printed_array_plain (l : list Z) :
  elems_written (printed_array l) = 0%nat /\ doubles_written (printed_array l) = [].
Proof.
  unfold printed_array. rewrite !elems_written_app, !doubles_written_app.
  assert (H : elems_written (array_tokens l) = 0%nat /\
              doubles_written (array_tokens l) = []).
  { destruct l as [| x l]; [split; reflexivity |]. simpl.
    change (elems_written (of_int64_t x :: ?r)) with (elems_written r).
    induction l as [| y l IH]; [split; reflexivity |]. exact IH. }
  destruct H as [-> ->]. split; reflexivity.
Qed.

Lemma elem_tokens_written (T : CType) (l : list (value T)) :
  elems_written (flat_map (elem_tokens T) l) = List.length l /\
  doubles_written (flat_map (elem_tokens T) l) = [].
Proof.
  induction l as [| x l [IH1 IH2]]; [split; reflexivity |].
  split.
  - simpl. unfold elems_written in *. simpl. now rewrite IH1.
  - simpl. exact IH2.
Qed.

(** *** Print of a handle that owns a structure of the requested type *)

Section PrintOwned.

Variable T : CType.
Variable m : dlpack.DLManagedTensor.
Variable mem : dlpack.ptr -> list (value T).

Hypothesis view : view_ok T (dlpack.dl_tensor m).

Lemma data_of_view :
  Tensor.data T (Tensor.Tensor (Some m)) = Ok (dlpack.data (dlpack.dl_tensor m)).
Proof.
  destruct view as (Hoff & Hcode & Hbits).
  unfold Tensor.data, Tensor.EnforceDataType, details.IsDataType. simpl.
  rewrite Hoff, Hcode, Z.eqb_refl. simpl.
  destruct Hbits as [-> | ->]; rewrite ?Z.eqb_refl, ?orb_true_r; reflexivity.
Qed.

(** The loop over the elements: [trips] more trips from index [i] add the
    elements [i, i + trips) to [sum], take [trips] from [cnt], and write the
    first [cnt + 1] of these elements. *)
Lemma Print_loop (trips : nat) :
  let buf := mem (dlpack.data (dlpack.dl_tensor m)) in
  forall (i : nat) (cnt : Z) (sum : float) (os : ostream),
    Z.of_nat i + Z.of_nat trips <= INT_MAX ->
    (i + trips <= List.length buf)%nat ->
    for_int trips (Z.of_nat i)
      (fun i '(cnt, sum) =>
         p <- lift (Tensor.data T (Tensor.Tensor (Some m))) ;;
         x <- lift (subscript (mem p) i) ;;
         let sum := (sum + to_double T x)%float in
         (if cnt >=? 0 then
            p <- lift (Tensor.data T (Tensor.Tensor (Some m))) ;;
            x <- lift (subscript (mem p) i) ;;
            put (of_elem T x) ;; put (str ", ")
          else ret tt) ;;
         ret (cnt - 1, sum))
      (cnt, sum) os
    = (Ok (cnt - Z.of_nat trips,
           fold_left (fun s x => (s + to_double T x)%float)
             (firstn trips (skipn i buf)) sum),
       os ++ flat_map (elem_tokens T)
               (firstn (Z.to_nat (cnt + 1)) (firstn trips (skipn i buf)))).
Proof.
  intros buf. rewrite data_of_view. fold buf.
  induction trips as [| trips' IH]; intros i cnt sum os Hmax Hlen.
  - simpl. rewrite firstn_nil, app_nil_r, Z.sub_0_r. reflexivity.
  - destruct (nth_error buf i) as [x |] eqn:Hx.
    2: { apply nth_error_None in Hx. lia. }
    cbn [for_int].
    erewrite bind_run.
    2: { cbn [bind Sequenced_writer lift ret]. fold buf.
         rewrite (subscript_nth _ _ _ Hx).
         instantiate (1 := os ++ if cnt >=? 0 then elem_tokens T x else []).
         instantiate (1 := (cnt - 1, (sum + to_double T x)%float)).
         destruct (cnt >=? 0); unfold put, elem_tokens; simpl.
         - rewrite <- app_assoc. reflexivity.
         - rewrite app_nil_r. reflexivity. }
    replace (Z.of_nat i =? INT_MAX) with false by (symmetry; apply Z.eqb_neq; lia).
    replace (Z.of_nat i + 1) with (Z.of_nat (S i)) by lia.
    rewrite IH by lia.
    rewrite (skipn_nth _ _ _ Hx). cbn [firstn fold_left].
    f_equal; [f_equal; f_equal; lia |].
    rewrite <- app_assoc. f_equal.
    replace (cnt - 1 + 1) with cnt by lia.
    destruct (Z.geb_spec cnt 0) as [Hc | Hc].
    + replace (Z.to_nat (cnt + 1)) with (S (Z.to_nat cnt)) by lia.
      reflexivity.
    + replace (Z.to_nat (cnt + 1)) with 0%nat by lia.
      replace (Z.to_nat cnt) with 0%nat by lia. reflexivity.
Qed.

(** What [Print<T>] writes, token by token. *)
Lemma Print_output (n : Z) (os : ostream) :
  let d := dlpack.dl_tensor m in
  let this := Tensor.Tensor (Some m) in
  let buf := mem (dlpack.data d) in
  let k := Z.to_nat (dlpack.ndim d) in
  0 <= dlpack.ndim d <= INT_MAX ->
  dlpack.ndim d <= Z.of_nat (List.length (dlpack.shape d)) ->
  (forall s, dlpack.strides d = Some s -> dlpack.ndim d <= Z.of_nat (List.length s)) ->
  Tensor.numel this = Ok n ->
  n <= INT_MAX ->
  n <= Z.of_nat (List.length buf) ->
  Tensor.Print T mem this os
  = (Ok tt,
     os ++ [str (type_label (dlpack.code (dlpack.dtype d))); endl;
            str "numel: "; of_size_t n; endl;
            str "n_dim: "; of_size_t (dlpack.ndim d); endl;
            str "stride: "]
        ++ match dlpack.strides d with
           | Some s => printed_array (firstn k s)
           | None => [str "null"]
           end
        ++ [str Tensor.nl; str "shape: "]
        ++ printed_array (firstn k (dlpack.shape d))
        ++ [str Tensor.nl; str "first 10 elems: ("]
        ++ flat_map (elem_tokens T) (firstn 11 (firstn (Z.to_nat n) buf))
        ++ [str (")" ++ Tensor.nl); str "sum is ";
            of_double (sum_of T (firstn (Z.to_nat n) buf)); endl]).
Proof.
  intros d this buf k Hndim Hshape Hstrides Hnumel Hn Hbuf.
  assert (Hk : to_size_t (dlpack.ndim d) = dlpack.ndim d)
    by (apply to_size_t_small; unfold INT_MAX in Hndim; lia).
  unfold Tensor.Print.
  erewrite bind_run by reflexivity. fold d.
  erewrite bind_run by apply type_label_run.
  erewrite bind_run by reflexivity.
  erewrite bind_run by (unfold lift; simpl; fold this; rewrite Hnumel; reflexivity).
  erewrite bind_run by reflexivity.
  erewrite bind_run by reflexivity.
  erewrite bind_run by reflexivity.
  erewrite bind_run by (unfold Tensor.n_dim; simpl; fold d; rewrite Hk; reflexivity).
  erewrite bind_run by reflexivity.
  erewrite bind_run by reflexivity.
  erewrite bind_run by reflexivity.
  erewrite bind_run
    by (rewrite Hk; apply strides_run; intros s Hs; specialize (Hstrides s Hs); lia).
  erewrite bind_run by reflexivity.
  erewrite bind_run by reflexivity.
  erewrite bind_run by (rewrite Hk; apply PrintArray_run; lia).
  erewrite bind_run by reflexivity.
  erewrite bind_run by reflexivity.
  erewrite bind_run
    by (apply (Print_loop (Z.to_nat n) 0%nat 10 0%float);
        fold d; fold buf; simpl; lia).
  unfold put. cbn [bind Sequenced_writer snd skipn].
  fold d. fold buf. fold k. unfold sum_of.
  change (Z.to_nat (10 + 1)) with 11%nat.
  rewrite <- !app_assoc. reflexivity.
Qed.

(** X1: every owning handle whose structure passes the typed view's checks, whose
    arrays hold [ndim] entries and whose buffer holds [numel()] elements
    (fewer than [2 ^ 31]): [Print<T>] succeeds, writes [min(numel, 11)]
    elements, the first ones of the buffer, and writes one [double], the sum
    of all [numel] elements added up in [double] from [0.]. *)
Theorem Print_elements_and_sum (n : Z) :
  let d := dlpack.dl_tensor m in
  let this := Tensor.Tensor (Some m) in
  let buf := mem (dlpack.data d) in
  0 <= dlpack.ndim d <= INT_MAX ->
  dlpack.ndim d <= Z.of_nat (List.length (dlpack.shape d)) ->
  (forall s, dlpack.strides d = Some s -> dlpack.ndim d <= Z.of_nat (List.length s)) ->
  Tensor.numel this = Ok n ->
  0 <= n <= INT_MAX ->
  n <= Z.of_nat (List.length buf) ->
  exists os,
    Tensor.Print T mem this [] = (Ok tt, os) /\
    elems_written os = Z.to_nat (Z.min n 11) /\
    (exists header,
       os = header
            ++ flat_map (elem_tokens T) (firstn 11 (firstn (Z.to_nat n) buf))
            ++ [str (")" ++ Tensor.nl); str "sum is ";
                of_double (sum_of T (firstn (Z.to_nat n) buf)); endl]) /\
    doubles_written os = [sum_of T (firstn (Z.to_nat n) buf)].
Proof.
  intros d this buf Hndim Hshape Hstrides Hnumel Hn Hbuf.
  eexists. split.
  { apply (Print_output n []); try assumption. lia. }
  fold d. fold buf. rewrite app_nil_l.
  split; [| split].
  - rewrite !elems_written_app.
    rewrite (proj1 (elem_tokens_written T _)).
    rewrite (proj1 (printed_array_plain _)).
    rewrite length_firstn, length_firstn.
    destruct (dlpack.strides d) as [s |];
      [rewrite (proj1 (printed_array_plain _)) |];
      repeat match goal with
             | |- context [elems_written (?x :: ?l)] =>
                 change (elems_written (x :: l)) with 0%nat
             end; lia.
  - eexists. rewrite !app_assoc. reflexivity.
  - rewrite !doubles_written_app.
    rewrite (proj2 (elem_tokens_written T _)).
    rewrite (proj2 (printed_array_plain _)).
    destruct (dlpack.strides d) as [s |];
      [rewrite (proj2 (printed_array_plain _)) |]; reflexivity.
Qed.

End PrintOwned.

Lemma Print_elements_and_sum_witness :
  exists m h',
    CreateDLPackTensor c_float [5] [] = (Ok m, h') /\
    exists os,
      Tensor.Print c_float (fun _ => [1; 2; 3; 4; 5]%float)
        (Tensor.Tensor (Some m)) [] = (Ok tt, os) /\
      elems_written os = Z.to_nat (Z.min 5 11) /\
      (exists header,
         os = header
              ++ flat_map (elem_tokens c_float)
                   (firstn 11 (firstn (Z.to_nat 5) [1; 2; 3; 4; 5]%float))
              ++ [str (")" ++ Tensor.nl); str "sum is ";
                  of_double (sum_of c_float
                               (firstn (Z.to_nat 5) [1; 2; 3; 4; 5]%float));
                  endl]) /\
      doubles_written os
      = [sum_of c_float (firstn (Z.to_nat 5) [1; 2; 3; 4; 5]%float)].
Proof.
  eexists. eexists. split; [reflexivity |].
  apply (Print_elements_and_sum c_float _ (fun _ => [1; 2; 3; 4; 5]%float)).
  - unfold view_ok. simpl. auto.
  - vm_compute. split; discriminate.
  - vm_compute. discriminate.
  - intros s Hs. discriminate Hs.
  - reflexivity.
  - vm_compute. split; discriminate.
  - vm_compute. discriminate.
Defined.

(** * Further properties of the code *)

(** ** Typed views and the type registry *)

Lemma data_mismatch (T : CType) (m : dlpack.DLManagedTensor) :
  dlpack.byte_offset (dlpack.dl_tensor m) = 0 ->
  details.IsDataType T (dlpack.dtype (dlpack.dl_tensor m)) = false ->
  Tensor.data T (Tensor.Tensor (Some m))
  = Throw (DataTypeMismatch T (dlpack.code (dlpack.dtype (dlpack.dl_tensor m)))
             (dlpack.bits (dlpack.dtype (dlpack.dl_tensor m)))).
Proof.
  intros Hoff Hty. unfold Tensor.data, Tensor.EnforceDataType. simpl.
  rewrite Hoff, Hty. reflexivity.
Qed.

(** X4: a tensor the factory made for the element type [T] (from a non-empty
    list whose accumulation stays within [int64_t]) gives a typed view
    exactly to [T]: [data<T'>()] and [mutableData<T'>()] return the buffer the
    factory allocated if [T'] is [T], and throw the data type mismatch (request
    [T'], actual code and bits of [T]) for each of the two other supported
    types. *)
Theorem typed_view_of_created_tensor
    (T T' : CType) (shape_list : list Z) (h : heap) :
  shape_list <> [] ->
  accumulation_fits shape_list ->
  exists m h',
    CreateDLPackTensor T shape_list h = (Ok m, h') /\
    (Tensor.data T' (Tensor.Tensor (Some m)) = Ok (dlpack.block (List.length h + 2))
     <-> T' = T) /\
    (Tensor.mutableData T' (Tensor.Tensor (Some m))
     = Ok (dlpack.block (List.length h + 2)) <-> T' = T) /\
    (T' <> T ->
     Tensor.data T' (Tensor.Tensor (Some m))
     = Throw (DataTypeMismatch T' (details.DLPackTypeCode T) (sizeof T * 8)) /\
     Tensor.mutableData T' (Tensor.Tensor (Some m))
     = Throw (DataTypeMismatch T' (details.DLPackTypeCode T) (sizeof T * 8))).
Proof.
  intros Hne Hfits. eexists. eexists.
  split; [apply CreateDLPackTensor_succeeds; assumption |].
  change (Tensor.mutableData T') with (Tensor.data T').
  destruct T, T'; vm_compute;
    repeat split; intros; try reflexivity; try congruence; try discriminate.
Qed.

Lemma typed_view_of_created_tensor_witness :
  [2; 3] <> [] /\
  accumulation_fits [2; 3] /\
  exists m h',
    CreateDLPackTensor c_int [2; 3] [] = (Ok m, h') /\
    Tensor.data c_int (Tensor.Tensor (Some m)) = Ok (dlpack.block 2) /\
    Tensor.data c_int64_t (Tensor.Tensor (Some m))
    = Throw (DataTypeMismatch c_int64_t dlpack.kDLInt 32).
Proof.
  split; [discriminate |].
  split; [apply accumulation_fits_check; reflexivity |].
  destruct (typed_view_of_created_tensor c_int c_int [2; 3] [])
    as (m & h' & Hm & Hdata & _);
    [discriminate | apply accumulation_fits_check; reflexivity |].
  destruct (typed_view_of_created_tensor c_int c_int64_t [2; 3] [])
    as (m' & h'' & Hm' & _ & _ & Hthrow);
    [discriminate | apply accumulation_fits_check; reflexivity |].
  exists m, h'. split; [exact Hm |]. split.
  - apply Hdata. reflexivity.
  - rewrite Hm in Hm'. injection Hm' as -> _.
    apply Hthrow. discriminate.
Defined.

(** X5: a stored bit width of [0] switches the width check off. On a handle
    whose structure has [byte_offset == 0], the code [kDLInt] and [bits == 0],
    [data<int>()] and [data<int64_t>()] both succeed and return the same
    pointer, the structure's [data]; [data<float>()] throws the data type
    mismatch. *)
Theorem unspecified_width_views (m : dlpack.DLManagedTensor) :
  let d := dlpack.dl_tensor m in
  let this := Tensor.Tensor (Some m) in
  dlpack.byte_offset d = 0 ->
  dlpack.code (dlpack.dtype d) = dlpack.kDLInt ->
  dlpack.bits (dlpack.dtype d) = 0 ->
  Tensor.data c_int this = Ok (dlpack.data d) /\
  Tensor.data c_int64_t this = Ok (dlpack.data d) /\
  Tensor.data c_float this = Throw (DataTypeMismatch c_float dlpack.kDLInt 0).
Proof.
  intros d this Hoff Hcode Hbits. repeat split.
  - apply data_of_view. unfold view_ok. fold d. auto.
  - apply data_of_view. unfold view_ok. fold d. auto.
  - unfold this. rewrite data_mismatch; fold d.
    + now rewrite Hcode, Hbits.
    + exact Hoff.
    + unfold details.IsDataType. now rewrite Hcode.
Qed.

Lemma unspecified_width_views_witness :
  let m := {| dlpack.dl_tensor :=
                {| dlpack.data := dlpack.block 7;
                   dlpack.ctx := {| dlpack.device_type := dlpack.kDLCPU;
                                    dlpack.device_id := 0 |};
                   dlpack.ndim := 1;
                   dlpack.dtype := {| dlpack.code := dlpack.kDLInt;
                                      dlpack.bits := 0;
                                      dlpack.lanes := 1 |};
                   dlpack.shape := [4];
                   dlpack.strides := None;
                   dlpack.byte_offset := 0 |};
              dlpack.deleter := dlpack.foreign_deleter 1 |} in
  Tensor.data c_int (Tensor.Tensor (Some m)) = Ok (dlpack.block 7) /\
  Tensor.data c_int64_t (Tensor.Tensor (Some m)) = Ok (dlpack.block 7) /\
  Tensor.data c_float (Tensor.Tensor (Some m))
  = Throw (DataTypeMismatch c_float dlpack.kDLInt 0).
Proof.
  intros m. apply (unspecified_width_views m); reflexivity.
Defined.

(** ** The metadata queries *)

Lemma subscript_out {A : Type} (arr : list A) (i : Z) :
  Z.of_nat (List.length arr) <= i -> subscript arr i = Undefined OutOfBounds.
Proof.
  intros Hi. unfold subscript.
  replace (i <? Z.of_nat (List.length arr)) with false
    by (symmetry; apply Z.ltb_ge; lia).
  now rewrite andb_false_r.
Qed.

Lemma subscript_never_throws {A : Type} (arr : list A) (i : Z) :
  never_throws (subscript arr i).
Proof.
  intros e. unfold subscript.
  destruct ((0 <=? i) && (i <? Z.of_nat (List.length arr)));
    [destruct (nth_error arr (Z.to_nat i)) |]; discriminate.
Qed.

(** A loop in [outcome] whose body does not throw does not throw. *)
Lemma for_int_never_throws {S : Type} (body : Z -> S -> outcome S) :
  (forall i s, never_throws (body i s)) ->
  forall trips i s, never_throws (for_int trips i body s).
Proof.
  intros Hbody. induction trips as [| trips IH]; intros i s e; simpl.
  - discriminate.
  - destruct (body i s) as [s' | e' | u] eqn:Hb.
    + destruct (i =? INT_MAX); [discriminate | apply IH].
    + exfalso. exact (Hbody i s e' Hb).
    + discriminate.
Qed.

(** X6: [n_dim()], [shape(pos)], [numel()] and [device_type()] have no failure
    of their own. On every handle, empty or not, whatever its structure holds
    and whatever [pos] is, none of them throws: each returns a value or has
    undefined behaviour. *)
Theorem metadata_queries_never_throw (this : Tensor.t) :
  never_throws (Tensor.n_dim this) /\
  (forall pos, never_throws (Tensor.shape this pos)) /\
  never_throws (Tensor.numel this) /\
  never_throws (Tensor.device_type this).
Proof.
  assert (Hshape : forall pos, never_throws (Tensor.shape this pos)).
  { intros pos. unfold Tensor.shape, Tensor.dl_tensor.
    destruct (Tensor.tensor_ this) as [m |]; simpl.
    - apply subscript_never_throws.
    - discriminate. }
  repeat split.
  - unfold Tensor.n_dim, Tensor.dl_tensor.
    destruct (Tensor.tensor_ this); discriminate.
  - exact Hshape.
  - unfold Tensor.numel, Tensor.n_dim, Tensor.dl_tensor.
    destruct (Tensor.tensor_ this) as [m |] eqn:Hm; simpl; [| discriminate].
    destruct (to_size_t (dlpack.ndim (dlpack.dl_tensor m)) =? 0); [discriminate |].
    apply for_int_never_throws. intros i s e.
    destruct (Tensor.shape this (to_size_t i)) as [d | e' | u] eqn:Hd;
      simpl; try discriminate.
    exfalso. exact (Hshape _ e' Hd).
  - unfold Tensor.device_type, Tensor.dl_tensor.
    destruct (Tensor.tensor_ this); discriminate.
Qed.

(** The loop of [numel()] when it is to read past the shape array, or to count
    past [INT_MAX]: its behaviour is undefined. *)
Lemma numel_loop_undefined (m : dlpack.DLManagedTensor) (trips : nat) :
  forall (i : nat) (acc : Z),
    (0 < trips)%nat ->
    Z.of_nat i <= INT_MAX ->
    (List.length (dlpack.shape (dlpack.dl_tensor m)) < i + trips)%nat \/
    INT_MAX < Z.of_nat i + Z.of_nat trips ->
    exists u,
      for_int trips (Z.of_nat i)
        (fun i numel_ =>
           d <- Tensor.shape (Tensor.Tensor (Some m)) (to_size_t i) ;;
           ret (to_size_t (numel_ * to_size_t d)))
        acc
      = Undefined u.
Proof.
  induction trips as [| trips IH]; intros i acc Htrips Hi Hpast; [lia |].
  cbn [for_int]. unfold Tensor.shape at 1. simpl.
  rewrite to_size_t_small by (unfold INT_MAX in Hi; lia).
  destruct (nth_error (dlpack.shape (dlpack.dl_tensor m)) i) as [d |] eqn:Hd.
  - assert (i < List.length (dlpack.shape (dlpack.dl_tensor m)))%nat
      by (apply nth_error_Some; congruence).
    rewrite (subscript_nth _ _ _ Hd).
    destruct (Z.eqb_spec (Z.of_nat i) INT_MAX) as [Hmax | Hmax].
    + eexists. reflexivity.
    + replace (Z.of_nat i + 1) with (Z.of_nat (S i)) by lia.
      apply IH; lia.
  - apply nth_error_None in Hd.
    rewrite subscript_out by lia. eexists. reflexivity.
Qed.

(** X7: on a handle that owns a structure, [numel()] returns a value exactly
    when [ndim] (an [int]) is not negative and the shape array holds at least
    [ndim] entries; if [ndim] is negative or larger than the array, the loop
    reads past the array or overflows its counter, and the behaviour is
    undefined. *)
Theorem numel_defined (m : dlpack.DLManagedTensor) :
  let d := dlpack.dl_tensor m in
  let this := Tensor.Tensor (Some m) in
  INT_MIN <= dlpack.ndim d <= INT_MAX ->
  ((exists v, Tensor.numel this = Ok v) <->
   0 <= dlpack.ndim d <= Z.of_nat (List.length (dlpack.shape d))) /\
  (~ 0 <= dlpack.ndim d <= Z.of_nat (List.length (dlpack.shape d)) ->
   exists u, Tensor.numel this = Undefined u).
Proof.
  intros d this Hint.
  assert (Hundef : ~ 0 <= dlpack.ndim d <= Z.of_nat (List.length (dlpack.shape d)) ->
                   exists u, Tensor.numel this = Undefined u).
  { intros Hout. unfold Tensor.numel, Tensor.n_dim. simpl. fold d.
    assert (Hn : 0 < to_size_t (dlpack.ndim d) /\
                 (Z.of_nat (List.length (dlpack.shape d)) < to_size_t (dlpack.ndim d) \/
                  INT_MAX < to_size_t (dlpack.ndim d))).
    { unfold to_size_t, INT_MIN, INT_MAX in *.
      destruct (Z.lt_ge_cases (dlpack.ndim d) 0) as [Hneg | Hpos].
      - replace (dlpack.ndim d mod 2 ^ 64) with (dlpack.ndim d + 2 ^ 64).
        + lia.
        + apply Z.mod_unique with (q := -1); lia.
      - rewrite Z.mod_small by lia. lia. }
    destruct Hn as [Hn0 Hn].
    replace (to_size_t (dlpack.ndim d) =? 0) with false
      by (symmetry; apply Z.eqb_neq; lia).
    apply (numel_loop_undefined m (Z.to_nat (to_size_t (dlpack.ndim d))) 0 1).
    - lia.
    - unfold INT_MAX. simpl. lia.
    - fold d. simpl. lia. }
  split; [| exact Hundef]. split.
  - intros [v Hv].
    destruct (Z.le_gt_cases 0 (dlpack.ndim d)) as [H0 | H0];
      [destruct (Z.le_gt_cases (dlpack.ndim d)
                   (Z.of_nat (List.length (dlpack.shape d)))) as [H1 | H1] |];
      [lia | |];
      (destruct Hundef as [u Hu]; [lia | rewrite Hu in Hv; discriminate]).
  - intros [H0 H1].
    destruct (Z.eq_dec (dlpack.ndim d) 0) as [Hz | Hz].
    + exists 0. unfold Tensor.numel, Tensor.n_dim. simpl. fold d.
      rewrite Hz. reflexivity.
    + eexists. apply numel_positive; fold d; lia.
Qed.

Lemma numel_defined_witness :
  INT_MIN <= dlpack.ndim (dlpack.dl_tensor offset_tensor) <= INT_MAX /\
  ((exists v, Tensor.numel (Tensor.Tensor (Some offset_tensor)) = Ok v) <->
   0 <= dlpack.ndim (dlpack.dl_tensor offset_tensor)
     <= Z.of_nat (List.length (dlpack.shape (dlpack.dl_tensor offset_tensor)))).
Proof.
  assert (Hint : INT_MIN <= dlpack.ndim (dlpack.dl_tensor offset_tensor) <= INT_MAX)
    by (vm_compute; split; discriminate).
  split; [exact Hint |].
  exact (proj1 (numel_defined offset_tensor Hint)).
Defined.

(** ** The factory's buffer and [numel()] *)

(** When the narrowed count is the [size_t] product. *)
Lemma narrowed_count_agrees (p : Z) :
  to_size_t (to_int p) = p mod 2 ^ 64 <->
  p mod 2 ^ 64 < 2 ^ 31 \/ 2 ^ 64 - 2 ^ 31 <= p mod 2 ^ 64.
Proof.
  assert (Hp : to_int p = to_int (p mod 2 ^ 64)).
  { rewrite <- (to_int_congr (p mod 2 ^ 64) (p / 2 ^ 64 * 2 ^ 32)).
    f_equal. rewrite (Z.div_mod p (2 ^ 64)) at 1 by lia.
    replace (2 ^ 64) with (2 ^ 32 * 2 ^ 32) at 1 by reflexivity. ring. }
  rewrite Hp.
  pose proof (Z.mod_pos_bound p (2 ^ 64) ltac:(lia)) as Hr.
  generalize dependent (p mod 2 ^ 64). intros r _ Hr.
  unfold to_size_t, to_int.
  change (2 ^ 64) with 18446744073709551616 in *.
  change (2 ^ 32) with 4294967296.
  change (2 ^ 31) with 2147483648.
  Z.div_mod_to_equations. lia.
Qed.

(** X8: the buffer of a created tensor against its [numel()]. For a non-empty
    shape list (its size within [int]) whose accumulation stays within
    [int64_t], the count the factory passes to
    [align_alloc_t] equals [numel()] of the new handle exactly when the
    product of the entries, taken modulo [2 ^ 64], is below [2 ^ 31] or at
    least [2 ^ 64 - 2 ^ 31]; in particular a product in [[0, INT_MAX]] gives a
    buffer of exactly [numel()] elements, and a product in
    [[2 ^ 31, 2 ^ 64 - 2 ^ 31)] gives a buffer of another size. *)
Theorem created_buffer_and_numel (T : CType) (shape_list : list Z) (h : heap) :
  shape_list <> [] ->
  size shape_list <= INT_MAX ->
  accumulation_fits shape_list ->
  exists m n,
    CreateDLPackTensor T shape_list h
    = (Ok m, h ++ [new_DLManagedTensor; new_int64_array (size shape_list);
                   align_alloc T n]) /\
    (Tensor.numel (Tensor.Tensor (Some m)) = Ok n <->
     product shape_list mod 2 ^ 64 < 2 ^ 31 \/
     2 ^ 64 - 2 ^ 31 <= product shape_list mod 2 ^ 64) /\
    (0 <= product shape_list <= INT_MAX ->
     n = product shape_list /\
     Tensor.numel (Tensor.Tensor (Some m)) = Ok (product shape_list)).
Proof.
  intros Hne Hsize Hfits. eexists. eexists.
  split; [apply CreateDLPackTensor_succeeds; assumption |].
  assert (Hpos : 0 < size shape_list)
    by (unfold size; destruct shape_list; [congruence | simpl; lia]).
  assert (Hndim : to_int (size shape_list) = size shape_list)
    by (apply to_int_small; unfold INT_MIN; lia).
  assert (Hnumel : Tensor.numel (Tensor.Tensor (Some
            {| dlpack.dl_tensor :=
                 {| dlpack.data := dlpack.block (List.length h + 2);
                    dlpack.ctx := {| dlpack.device_type := dlpack.kDLCPU;
                                     dlpack.device_id := 0 |};
                    dlpack.ndim := to_int (size shape_list);
                    dlpack.dtype :=
                      {| dlpack.code := details.DLPackTypeCode T;
                         dlpack.bits := sizeof T * 8;
                         dlpack.lanes := 1 |};
                    dlpack.shape := shape_list;
                    dlpack.strides := None;
                    dlpack.byte_offset := 0 |};
               dlpack.deleter := dlpack.DLManagedTensorDeletor |}))
          = Ok (product shape_list mod 2 ^ 64)).
  { rewrite numel_positive; simpl; rewrite Hndim.
    - unfold size. rewrite Nat2Z.id, firstn_all. reflexivity.
    - lia.
    - unfold size. lia. }
  rewrite Hnumel. split.
  - rewrite <- narrowed_count_agrees. split; [congruence | intros ->; reflexivity].
  - intros Hp.
    assert (Hsmall : product shape_list mod 2 ^ 64 = product shape_list)
      by (apply Z.mod_small; unfold INT_MAX in Hp; lia).
    rewrite Hsmall. split; [| reflexivity].
    rewrite to_int_small by (unfold INT_MIN; lia).
    apply to_size_t_small. unfold INT_MAX in Hp. lia.
Qed.

Lemma created_buffer_and_numel_witness :
  [2; 3] <> [] /\
  size [2; 3] <= INT_MAX /\
  accumulation_fits [2; 3] /\
  0 <= product [2; 3] <= INT_MAX /\
  exists m n,
    CreateDLPackTensor c_float [2; 3] []
    = (Ok m, [new_DLManagedTensor; new_int64_array 2; align_alloc c_float n]) /\
    n = 6 /\
    Tensor.numel (Tensor.Tensor (Some m)) = Ok 6.
Proof.
  split; [discriminate |].
  split; [vm_compute; discriminate |].
  split; [apply accumulation_fits_check; reflexivity |].
  split; [vm_compute; split; discriminate |].
  destruct (created_buffer_and_numel c_float [2; 3] [])
    as (m & n & Hm & _ & Hn);
    [discriminate | vm_compute; discriminate
    | apply accumulation_fits_check; reflexivity |].
  exists m, n. split; [exact Hm |].
  apply Hn. vm_compute. split; discriminate.
Defined.

(** ** Destruction *)

(** X9: who calls the deleter. Destroying a handle that owns a structure makes
    one call, of the structure's own [deleter] on the structure; destroying a
    handle constructed from a null pointer, or one [ToDLPack()] has emptied,
    makes none. So when a structure is taken out of one handle and put in a
    second, destroying the two handles in either order calls the deleter
    exactly once. *)
Theorem destroy_calls (m : dlpack.DLManagedTensor) (calls : list deleter_call) :
  let first := Tensor.Tensor (Some m) in
  let emptied := snd (Tensor.ToDLPack first) in
  Tensor.destroy first calls = calls ++ [(dlpack.deleter m, m)] /\
  Tensor.destroy (Tensor.Tensor None) calls = calls /\
  Tensor.destroy emptied calls = calls /\
  (forall exported,
     fst (Tensor.ToDLPack first) = Ok exported ->
     let second := Tensor.Tensor (Some exported) in
     Tensor.destroy second (Tensor.destroy emptied calls)
     = calls ++ [(dlpack.deleter m, m)] /\
     Tensor.destroy emptied (Tensor.destroy second calls)
     = calls ++ [(dlpack.deleter m, m)]).
Proof.
  intros first emptied. repeat split.
  - simpl in H. injection H as <-. reflexivity.
  - simpl in H. injection H as <-. reflexivity.
Qed.

Lemma destroy_calls_witness :
  exists m h',
    CreateDLPackTensor c_float [2; 3] [] = (Ok m, h') /\
    fst (Tensor.ToDLPack (Tensor.Tensor (Some m))) = Ok m /\
    Tensor.destroy (Tensor.Tensor (Some m))
      (Tensor.destroy (snd (Tensor.ToDLPack (Tensor.Tensor (Some m)))) [])
    = [(dlpack.DLManagedTensorDeletor, m)].
Proof.
  eexists. eexists. split; [reflexivity |]. split; [reflexivity |].
  match goal with
  | |- Tensor.destroy (Tensor.Tensor (Some ?m)) _ = _ =>
      destruct (destroy_calls m []) as (_ & _ & _ & Hrt)
  end.
  exact (proj1 (Hrt _ eq_refl)).
Defined.

(** ** Print, whatever the requested type *)

(** [Print] up to its loop: the header is written, whatever [T] is. *)
Lemma Print_splits (T : CType) (mem : dlpack.ptr -> list (value T))
    (m : dlpack.DLManagedTensor) (n : Z) (os : ostream) :
  let d := dlpack.dl_tensor m in
  let this := Tensor.Tensor (Some m) in
  0 <= dlpack.ndim d <= INT_MAX ->
  dlpack.ndim d <= Z.of_nat (List.length (dlpack.shape d)) ->
  (forall s, dlpack.strides d = Some s -> dlpack.ndim d <= Z.of_nat (List.length s)) ->
  Tensor.numel this = Ok n ->
  Tensor.Print T mem this os
  = Print_elements T mem this n (os ++ Print_header d n).
Proof.
  intros d this Hndim Hshape Hstrides Hnumel.
  assert (Hk : to_size_t (dlpack.ndim d) = dlpack.ndim d)
    by (apply to_size_t_small; unfold INT_MAX in Hndim; lia).
  unfold Tensor.Print.
  erewrite bind_run by reflexivity. fold d.
  erewrite bind_run by apply type_label_run.
  erewrite bind_run by reflexivity.
  erewrite bind_run by (unfold lift; simpl; fold this; rewrite Hnumel; reflexivity).
  erewrite bind_run by reflexivity.
  erewrite bind_run by reflexivity.
  erewrite bind_run by reflexivity.
  erewrite bind_run by (unfold Tensor.n_dim; simpl; fold d; rewrite Hk; reflexivity).
  erewrite bind_run by reflexivity.
  erewrite bind_run by reflexivity.
  erewrite bind_run by reflexivity.
  erewrite bind_run
    by (rewrite Hk; apply strides_run; intros s Hs; specialize (Hstrides s Hs); lia).
  erewrite bind_run by reflexivity.
  erewrite bind_run by reflexivity.
  erewrite bind_run by (rewrite Hk; apply PrintArray_run; lia).
  erewrite bind_run by reflexivity.
  erewrite bind_run by reflexivity.
  unfold Print_elements, Print_header, put. fold this.
  f_equal. rewrite <- !app_assoc. reflexivity.
Qed.

Lemma Print_header_plain (d : dlpack.DLTensor) (n : Z) :
  elems_written (Print_header d n) = 0%nat /\
  doubles_written (Print_header d n) = [].
Proof.
  unfold Print_header.
  rewrite !elems_written_app, !doubles_written_app.
  rewrite (proj1 (printed_array_plain _)), (proj2 (printed_array_plain _)).
  destruct (dlpack.strides d) as [s |];
    [rewrite (proj1 (printed_array_plain _)), (proj2 (printed_array_plain _)) |];
    split; reflexivity.
Qed.

Lemma data_fails (T : CType) (m : dlpack.DLManagedTensor) :
  ~ view_ok T (dlpack.dl_tensor m) ->
  exists e,
    Tensor.data T (Tensor.Tensor (Some m)) = Throw e /\
    error_class e = TypeMismatch.
Proof.
  intros Hno. unfold Tensor.data, Tensor.EnforceDataType, enforce. simpl.
  destruct (Z.eqb_spec (dlpack.byte_offset (dlpack.dl_tensor m)) 0) as [H0 | H0];
    simpl.
  - destruct (details.IsDataType T (dlpack.dtype (dlpack.dl_tensor m))) eqn:Hty;
      simpl.
    + exfalso. apply Hno. split; [exact H0 |]. now apply IsDataType_spec.
    + eexists. split; reflexivity.
  - eexists. split; reflexivity.
Qed.

(** X10: [Print<T>] checks [T] only when it reads an element. On an owning
    handle (arrays holding [ndim] entries) whose structure does not pass the
    typed view's checks for [T] and whose [numel()] is positive, [Print<T>]
    throws the failure of [data<T>()], a TypeMismatch-class one, after it has
    written the whole header up to [first 10 elems: (]: no element, no closing
    bracket and no sum follow. *)
Theorem Print_type_mismatch (T : CType) (mem : dlpack.ptr -> list (value T))
    (m : dlpack.DLManagedTensor) (n : Z) (os : ostream) :
  let d := dlpack.dl_tensor m in
  let this := Tensor.Tensor (Some m) in
  0 <= dlpack.ndim d <= INT_MAX ->
  dlpack.ndim d <= Z.of_nat (List.length (dlpack.shape d)) ->
  (forall s, dlpack.strides d = Some s -> dlpack.ndim d <= Z.of_nat (List.length s)) ->
  Tensor.numel this = Ok n ->
  0 < n ->
  ~ view_ok T d ->
  exists e,
    Tensor.data T this = Throw e /\
    error_class e = TypeMismatch /\
    Tensor.Print T mem this os = (Throw e, os ++ Print_header d n) /\
    elems_written (Print_header d n) = 0%nat /\
    doubles_written (Print_header d n) = [].
Proof.
  intros d this Hndim Hshape Hstrides Hnumel Hn Hno.
  destruct (data_fails T m Hno) as (e & He & Hclass).
  exists e. split; [exact He |]. split; [exact Hclass |].
  split; [| apply Print_header_plain].
  unfold this, d. rewrite (Print_splits T mem m n os) by assumption.
  unfold Print_elements.
  destruct (Z.to_nat n) as [| trips] eqn:Htrips; [lia |].
  cbn [for_int]. rewrite He. reflexivity.
Qed.

Lemma Print_type_mismatch_witness :
  exists m h' e,
    CreateDLPackTensor c_float [2; 3] [] = (Ok m, h') /\
    Tensor.data c_int64_t (Tensor.Tensor (Some m)) = Throw e /\
    error_class e = TypeMismatch /\
    Tensor.Print c_int64_t (fun _ => [1; 2; 3; 4; 5; 6]) (Tensor.Tensor (Some m)) []
    = (Throw e, Print_header (dlpack.dl_tensor m) 6).
Proof.
  eexists. eexists.
  match goal with
  | |- exists e, CreateDLPackTensor ?T ?l ?h = (Ok ?m, _) /\ _ =>
      destruct (Print_type_mismatch c_int64_t (fun _ => [1; 2; 3; 4; 5; 6])
                  {| dlpack.dl_tensor :=
                       {| dlpack.data := dlpack.block 2;
                          dlpack.ctx := {| dlpack.device_type := dlpack.kDLCPU;
                                           dlpack.device_id := 0 |};
                          dlpack.ndim := 2;
                          dlpack.dtype := {| dlpack.code := 2;
                                             dlpack.bits := 32;
                                             dlpack.lanes := 1 |};
                          dlpack.shape := [2; 3];
                          dlpack.strides := None;
                          dlpack.byte_offset := 0 |};
                     dlpack.deleter := dlpack.DLManagedTensorDeletor |} 6 [])
        as (e & He & Hclass & Hprint & _)
  end.
  - vm_compute. split; discriminate.
  - vm_compute. discriminate.
  - intros s Hs. discriminate Hs.
  - reflexivity.
  - reflexivity.
  - intros (_ & _ & [H | H]); vm_compute in H; discriminate.
  - exists e. split; [reflexivity |]. split; [exact He |].
    split; [exact Hclass | exact Hprint].
Defined.

(** X11: [Print<T>] of a tensor with no element checks nothing about [T]. On
    an owning handle (arrays holding [ndim] entries) whose [numel()] is [0],
    [Print<T>] succeeds for every [T], whatever the stored type and byte
    offset: after the header it writes the closing bracket and the sum [0],
    and reads no element. *)
Theorem Print_of_no_element (T : CType) (mem : dlpack.ptr -> list (value T))
    (m : dlpack.DLManagedTensor) (os : ostream) :
  let d := dlpack.dl_tensor m in
  let this := Tensor.Tensor (Some m) in
  0 <= dlpack.ndim d <= INT_MAX ->
  dlpack.ndim d <= Z.of_nat (List.length (dlpack.shape d)) ->
  (forall s, dlpack.strides d = Some s -> dlpack.ndim d <= Z.of_nat (List.length s)) ->
  Tensor.numel this = Ok 0 ->
  Tensor.Print T mem this os
  = (Ok tt,
     os ++ Print_header d 0
        ++ [str (")" ++ Tensor.nl); str "sum is "; of_double 0%float; endl]).
Proof.
  intros d this Hndim Hshape Hstrides Hnumel.
  unfold this, d. rewrite (Print_splits T mem m 0 os) by assumption.
  unfold Print_elements, put.
  cbn [Z.to_nat for_int bind Sequenced_writer ret snd].
  rewrite <- !app_assoc. reflexivity.
Qed.

Lemma Print_of_no_element_witness :
  exists m h',
    CreateDLPackTensor c_float [2; 0] [] = (Ok m, h') /\
    Tensor.Print c_int64_t (fun _ => []) (Tensor.Tensor (Some m)) []
    = (Ok tt,
       [] ++ Print_header (dlpack.dl_tensor m) 0
          ++ [str (")" ++ Tensor.nl); str "sum is "; of_double 0%float; endl]).
Proof.
  eexists. eexists. split; [reflexivity |].
  apply (Print_of_no_element c_int64_t (fun _ => []) _ []).
  - vm_compute. split; discriminate.
  - vm_compute. discriminate.
  - intros s Hs. discriminate Hs.
  - reflexivity.
Defined.

(** ** Print of a created tensor *)

Lemma numel_of_created (T : CType) (shape_list : list Z) (b : nat) :
  shape_list <> [] ->
  size shape_list <= INT_MAX ->
  Tensor.numel (Tensor.Tensor (Some
    {| dlpack.dl_tensor :=
         {| dlpack.data := dlpack.block b;
            dlpack.ctx := {| dlpack.device_type := dlpack.kDLCPU;
                             dlpack.device_id := 0 |};
            dlpack.ndim := to_int (size shape_list);
            dlpack.dtype :=
              {| dlpack.code := details.DLPackTypeCode T;
                 dlpack.bits := sizeof T * 8;
                 dlpack.lanes := 1 |};
            dlpack.shape := shape_list;
            dlpack.strides := None;
            dlpack.byte_offset := 0 |};
       dlpack.deleter := dlpack.DLManagedTensorDeletor |}))
  = Ok (product shape_list mod 2 ^ 64).
Proof.
  intros Hne Hsize.
  assert (Hpos : 0 < size shape_list)
    by (unfold size; destruct shape_list; [congruence | simpl; lia]).
  assert (Hndim : to_int (size shape_list) = size shape_list)
    by (apply to_int_small; unfold INT_MIN; lia).
  rewrite numel_positive; simpl; rewrite Hndim.
  - unfold size. rewrite Nat2Z.id, firstn_all. reflexivity.
  - lia.
  - unfold size. lia.
Qed.

(** X12: the factory establishes what [Print<T>] needs. For a non-empty shape
    list (its size within [int]) whose accumulation stays within [int64_t]
    and whose entries multiply to a product in [[0, INT_MAX]], once the
    buffer holds that many elements, [Print<T>] of
    the new handle, with the [T] of the factory, succeeds and writes: the type
    line ([type float] for [float], [type: int] for [int] and [int64_t]
    alike), [numel] the product, [n_dim] the size of the list, [stride: null],
    the shape as listed, the first eleven elements at most, and the sum of
    all elements. *)
Theorem Print_of_created_tensor (T : CType) (shape_list : list Z) (h : heap)
    (mem : dlpack.ptr -> list (value T)) :
  let buf := mem (dlpack.block (List.length h + 2)) in
  let p := product shape_list in
  shape_list <> [] ->
  size shape_list <= INT_MAX ->
  accumulation_fits shape_list ->
  0 <= p <= INT_MAX ->
  p <= Z.of_nat (List.length buf) ->
  exists m h',
    CreateDLPackTensor T shape_list h = (Ok m, h') /\
    Tensor.Print T mem (Tensor.Tensor (Some m)) []
    = (Ok tt,
       [str (match T with
             | c_float => "type float"
             | c_int | c_int64_t => "type: int"
             end); endl;
        str "numel: "; of_size_t p; endl;
        str "n_dim: "; of_size_t (size shape_list); endl;
        str "stride: "; str "null"; str Tensor.nl; str "shape: "]
       ++ printed_array shape_list
       ++ [str Tensor.nl; str "first 10 elems: ("]
       ++ flat_map (elem_tokens T) (firstn 11 (firstn (Z.to_nat p) buf))
       ++ [str (")" ++ Tensor.nl); str "sum is ";
           of_double (sum_of T (firstn (Z.to_nat p) buf)); endl]).
Proof.
  intros buf p Hne Hsize Hfits Hp Hbuf. eexists. eexists.
  split; [apply CreateDLPackTensor_succeeds; assumption |].
  assert (Hpos : 0 < size shape_list)
    by (unfold size; destruct shape_list; [congruence | simpl; lia]).
  assert (Hndim : to_int (size shape_list) = size shape_list)
    by (apply to_int_small; unfold INT_MIN; lia).
  rewrite (Print_output T _ mem) with (n := p).
  - cbn [dlpack.dl_tensor dlpack.dtype dlpack.code dlpack.ndim dlpack.strides
         dlpack.shape dlpack.data].
    rewrite Hndim. unfold size at 2 3. rewrite Nat2Z.id, firstn_all.
    fold buf. rewrite app_nil_l.
    replace (type_label (details.DLPackTypeCode T))
      with (match T with
            | c_float => "type float"
            | c_int | c_int64_t => "type: int"
            end) by (destruct T; reflexivity).
    reflexivity.
  - unfold view_ok. simpl. auto.
  - simpl. rewrite Hndim. lia.
  - simpl. rewrite Hndim. unfold size. lia.
  - intros s Hs. discriminate Hs.
  - rewrite numel_of_created by assumption.
    f_equal. apply Z.mod_small. unfold p, INT_MAX in *. lia.
  - lia.
  - exact Hbuf.
Qed.

Lemma Print_of_created_tensor_witness :
  [2; 3] <> [] /\
  size [2; 3] <= INT_MAX /\
  accumulation_fits [2; 3] /\
  0 <= product [2; 3] <= INT_MAX /\
  exists m h',
    CreateDLPackTensor c_int [2; 3] [] = (Ok m, h') /\
    Tensor.Print c_int (fun _ => [10; 20; 30; 40; 50; 60]) (Tensor.Tensor (Some m)) []
    = (Ok tt,
       [str "type: int"; endl;
        str "numel: "; of_size_t 6; endl;
        str "n_dim: "; of_size_t 2; endl;
        str "stride: "; str "null"; str Tensor.nl; str "shape: ";
        str "("; of_int64_t 2; str ", "; of_int64_t 3; str ")";
        str Tensor.nl; str "first 10 elems: (";
        of_elem c_int 10; str ", "; of_elem c_int 20; str ", ";
        of_elem c_int 30; str ", "; of_elem c_int 40; str ", ";
        of_elem c_int 50; str ", "; of_elem c_int 60; str ", ";
        str (")" ++ Tensor.nl); str "sum is "; of_double 210%float; endl]).
Proof.
  split; [discriminate |].
  split; [vm_compute; discriminate |].
  split; [apply accumulation_fits_check; reflexivity |].
  split; [vm_compute; split; discriminate |].
  destruct (Print_of_created_tensor c_int [2; 3] []
              (fun _ => [10; 20; 30; 40; 50; 60]))
    as (m & h' & Hm & Hprint).
  - discriminate.
  - vm_compute. discriminate.
  - apply accumulation_fits_check; reflexivity.
  - vm_compute. split; discriminate.
  - vm_compute. discriminate.
  - exists m, h'. split; [exact Hm |]. rewrite Hprint. vm_compute. reflexivity.
Defined.

(** ** PrintArray *)

(** The loop of [PrintArray] when it is to read past the array: the entries
    the array holds are written, then the separator of the entry that is not
    there, and the read is out of bounds. *)
Lemma PrintArray_loop_out (arr : list Z) (trips : nat) :
  forall (i : nat) (os : ostream),
    (0 < i <= List.length arr)%nat ->
    (List.length arr < i + trips)%nat ->
    for_size_t trips (Z.of_nat i)
      (fun i _ =>
         (if negb (i =? 0) then put (str ", ") else ret tt) ;;
         x <- lift (subscript arr i) ;;
         put (of_int64_t x))
      tt os
    = (Undefined OutOfBounds,
       os ++ flat_map (fun y => [str ", "; of_int64_t y]) (skipn i arr)
          ++ [str ", "]).
Proof.
  induction trips as [| trips IH]; intros i os Hi Hlen; [lia |].
  cbn [for_size_t].
  replace (Z.of_nat i =? 0) with false by (symmetry; apply Z.eqb_neq; lia).
  destruct (nth_error arr i) as [x |] eqn:Hx.
  - assert (i < List.length arr)%nat by (apply nth_error_Some; congruence).
    rewrite (subscript_nth _ _ _ Hx).
    replace (Z.of_nat i + 1) with (Z.of_nat (S i)) by lia.
    cbn [bind Sequenced_writer lift ret put negb].
    rewrite IH by lia.
    rewrite (skipn_nth _ _ _ Hx). simpl.
    rewrite <- !app_assoc. reflexivity.
  - apply nth_error_None in Hx.
    rewrite subscript_out by lia.
    cbn [bind Sequenced_writer lift ret put negb].
    rewrite skipn_all2 by lia. reflexivity.
Qed.

Lemma bind_undefined {A B : Type} (c : writer A) (k : A -> writer B)
    (os os' : ostream) (u : undefined_behaviour) :
  c os = (Undefined u, os') -> bind c k os = (Undefined u, os').
Proof. intros H. simpl. now rewrite H. Qed.

Lemma PrintArray_loop_out_0 (arr : list Z) (trips : nat) (os : ostream) :
  (List.length arr < trips)%nat ->
  for_size_t trips 0
    (fun i _ =>
       (if negb (i =? 0) then put (str ", ") else ret tt) ;;
       x <- lift (subscript arr i) ;;
       put (of_int64_t x))
    tt os
  = (Undefined OutOfBounds,
     os ++ array_tokens arr ++ match arr with [] => [] | _ :: _ => [str ", "] end).
Proof.
  intros Hlen. destruct trips as [| trips]; [lia |].
  cbn [for_size_t]. destruct arr as [| x arr].
  - simpl. now rewrite app_nil_r.
  - erewrite bind_run by reflexivity.
    change (0 + 1) with (Z.of_nat 1).
    rewrite PrintArray_loop_out by (simpl in *; lia).
    simpl. rewrite <- !app_assoc. reflexivity.
Qed.

(** X13: [PrintArray(os, data, n)] against the extent of [data]. With [n] at
    most the number of entries it writes the bracket, the first [n] entries
    separated by [", "], and the closing bracket: [()] for [n == 0]. With [n]
    larger, it writes the bracket and all the entries, then (unless the array
    is empty) one more separator, and reads out of bounds: nothing stops the
    loop at the end of the array. *)
Theorem PrintArray_bounds (arr : list Z) (n : Z) (os : ostream) :
  (0 <= n <= Z.of_nat (List.length arr) ->
   Tensor.PrintArray arr n os
   = (Ok tt, os ++ [str "("] ++ array_tokens (firstn (Z.to_nat n) arr) ++ [str ")"])) /\
  (Z.of_nat (List.length arr) < n ->
   Tensor.PrintArray arr n os
   = (Undefined OutOfBounds,
      os ++ [str "("] ++ array_tokens arr
         ++ match arr with [] => [] | _ :: _ => [str ", "] end)).
Proof.
  split.
  - intros Hn. now rewrite PrintArray_run.
  - intros Hn. unfold Tensor.PrintArray.
    erewrite bind_run by reflexivity.
    erewrite bind_undefined by (apply PrintArray_loop_out_0; lia).
    rewrite <- !app_assoc. reflexivity.
Qed.

Lemma PrintArray_bounds_witness :
  (0 <= 2 <= Z.of_nat (List.length [5; 7; 9]) /\
   Tensor.PrintArray [5; 7; 9] 2 []
   = (Ok tt, [str "("; of_int64_t 5; str ", "; of_int64_t 7; str ")"])) /\
  (Z.of_nat (List.length [5; 7; 9]) < 4 /\
   Tensor.PrintArray [5; 7; 9] 4 []
   = (Undefined OutOfBounds,
      [str "("; of_int64_t 5; str ", "; of_int64_t 7; str ", "; of_int64_t 9;
       str ", "])).
Proof.
  split.
  - split; [vm_compute; split; discriminate |].
    apply (proj1 (PrintArray_bounds [5; 7; 9] 2 [])).
    vm_compute. split; discriminate.
  - split; [vm_compute; reflexivity |].
    apply (proj2 (PrintArray_bounds [5; 7; 9] 4 [])).
    vm_compute. reflexivity.
Defined.

(** ** Print of a buffer shorter than numel *)




(** ** When the factory is defined *)

Lemma accumulate_defined_fits (l : list Z) (init n : Z) :
  accumulate to_int multiplies_int64_t l (to_int init) = Ok n ->
  forall l1 d l2,
    l = l1 ++ d :: l2 ->
    INT64_MIN <= to_int (init * product l1) * d <= INT64_MAX.
Proof.
  revert init. induction l as [| x l IH]; intros init Hacc l1 d l2 Hl.
  - destruct l1; discriminate Hl.
  - simpl in Hacc. unfold multiplies_int64_t in Hacc.
    destruct (Z.leb_spec INT64_MIN (to_int init * x)) as [Hlo | Hlo];
      [| discriminate Hacc].
    destruct (Z.leb_spec (to_int init * x) INT64_MAX) as [Hhi | Hhi];
      [| discriminate Hacc].
    simpl in Hacc. rewrite narrowed_step in Hacc.
    destruct l1 as [| y l1]; simpl in Hl; injection Hl as -> ->.
    + simpl. rewrite Z.mul_1_r. lia.
    + simpl. rewrite Z.mul_assoc. exact (IH _ Hacc l1 d l2 eq_refl).
Qed.

(** X15: when the factory has a defined result. For a non-empty list it
    returns a tensor exactly when each entry, times the product of the
    entries before it as the [int] accumulator holds it, is an [int64_t].
    Otherwise the multiplication of [std::multiplies<int64_t>] overflows,
    which is undefined; the structure and the shape array have been
    allocated by then, the data buffer has not. *)
Theorem CreateDLPackTensor_defined (T : CType) (shape_list : list Z) (h : heap) :
  shape_list <> [] ->
  ((exists m h', CreateDLPackTensor T shape_list h = (Ok m, h')) <->
   accumulation_fits shape_list) /\
  (~ accumulation_fits shape_list ->
   CreateDLPackTensor T shape_list h
   = (Undefined SignedOverflow,
      h ++ [new_DLManagedTensor; new_int64_array (size shape_list)])).
Proof.
  intros Hne.
  assert (Hsize : (size shape_list =? 0) = false).
  { apply Z.eqb_neq. unfold size.
    destruct shape_list; [congruence | simpl; lia]. }
  split; [split |].
  - intros (m & h' & Hm). unfold CreateDLPackTensor in Hm.
    rewrite Hsize in Hm. unfold enforce, allocate in Hm. cbn [negb] in Hm.
    destruct (accumulate to_int multiplies_int64_t shape_list 1)
      as [n | e | u] eqn:Hacc; try discriminate Hm.
    intros l1 d l2 Hl.
    change 1 with (to_int 1) in Hacc.
    pose proof (accumulate_defined_fits _ _ _ Hacc l1 d l2 Hl) as Hfit.
    now rewrite Z.mul_1_l in Hfit.
  - intros Hfits. eexists. eexists.
    apply CreateDLPackTensor_succeeds; assumption.
  - intros Hno. unfold CreateDLPackTensor.
    rewrite Hsize. unfold enforce, allocate. cbn [negb].
    rewrite (accumulation_overflows _ Hno).
    rewrite <- app_assoc. reflexivity.
Qed.

Lemma CreateDLPackTensor_defined_witness :
  [3; 4611686018427387905] <> [] /\
  ~ accumulation_fits [3; 4611686018427387905] /\
  CreateDLPackTensor c_float [3; 4611686018427387905] []
  = (Undefined SignedOverflow, [new_DLManagedTensor; new_int64_array 2]).
Proof.
  assert (Hno : ~ accumulation_fits [3; 4611686018427387905]).
  { intros Hfits.
    specialize (Hfits [3] 4611686018427387905 [] eq_refl).
    vm_compute in Hfits. destruct Hfits as [_ Hhi]. apply Hhi. reflexivity. }
  split; [discriminate |]. split; [exact Hno |].
  apply (proj2 (CreateDLPackTensor_defined c_float [3; 4611686018427387905] []
                  ltac:(discriminate)) Hno).
Defined.
